(** * MMC-scrape: a shallow embedding of the scraper's pure logic

    The Python scripts of the repository are embedded as Rocq functions:

    - [scripts/fixed_scraper.py], [firecrawl_scraper.py]:
      [CourseContentScraper.extract_folder_name];
    - [scripts/extract_images_now.py]: [extract_images_from_json];
    - [scripts/extract_bad_modules_csv.py], [scripts/scrape_bad_modules.py]:
      [load_bad_modules_list], [extract_bad_modules_csv];
    - [scripts/parallel_scraper_full.py], [scripts/parallel_scraper_demo.py]:
      [scrape_single_course], [process_batch], [main].

    A Python [str] is a list of characters; a character is a code point
    below 256 (the type [ascii]).  Calls into the Python standard library
    and the system whose result depends on data the scripts do not
    inspect ([json.loads], [base64.b64decode], [open] for writing, the
    scraping service) are parameters of the sections that use them, with
    the exceptions they raise among their results, so the theorems hold
    for every behaviour of these calls; the examples run them with the
    decoder of [Base64] and the data of [Samples].  Files are a finite map
    from path to content.  The CSV filter reads the rows that
    [csv.DictReader] yields, short and long lines included. *)

From Stdlib Require Import Strings.Ascii Strings.Byte NArith.
From stdpp Require Import gmap strings list fin_maps pretty sorting.

(** ** Python strings *)

Module Py.

Abbreviation str := (list ascii).

Definition lit (s : string) : str := String.list_ascii_of_string s.

(** [str.isspace] on one character: the code points below 256 that
    CPython classifies as whitespace. *)
Definition isspace (c : ascii) : bool :=
  let n := nat_of_ascii c in
  ((9 <=? n) && (n <=? 13)) || ((28 <=? n) && (n <=? 32))
  || (n =? 133) || (n =? 160).

(** [\d] of the [re] module on one character. *)
Definition isdigit (c : ascii) : bool :=
  let n := nat_of_ascii c in (48 <=? n) && (n <=? 57).

Fixpoint drop_while (p : ascii → bool) (s : str) : str :=
  match s with
  | [] => []
  | c :: s' => if p c then drop_while p s' else s
  end.

Fixpoint take_while (p : ascii → bool) (s : str) : str :=
  match s with
  | [] => []
  | c :: s' => if p c then c :: take_while p s' else []
  end.

(** [s.lstrip()], [s.rstrip()], [s.strip()] *)
Definition lstrip (s : str) : str := drop_while isspace s.
Definition rstrip (s : str) : str := rev (drop_while isspace (rev s)).
Definition strip (s : str) : str := rstrip (lstrip s).

(** [s.rstrip(c)] for a one-character argument *)
Definition rstrip_char (c : ascii) (s : str) : str :=
  rev (drop_while (Ascii.eqb c) (rev s)).

(** [s.replace(a, b)] for one-character [a] and [b] *)
Definition replace (a b : ascii) (s : str) : str :=
  map (λ c, if Ascii.eqb c a then b else c) s.

(** [s.startswith(p)] *)
Fixpoint startswith (p s : str) : bool :=
  match p, s with
  | [], _ => true
  | _ :: _, [] => false
  | a :: p', c :: s' => Ascii.eqb a c && startswith p' s'
  end.

(** [s.endswith(p)] *)
Definition endswith (p s : str) : bool := startswith (rev p) (rev s).

(** [s.split(sep)] for a one-character separator: never the empty list. *)
Fixpoint split (sep : ascii) (s : str) : list str :=
  match s with
  | [] => [[]]
  | c :: s' =>
      if Ascii.eqb c sep then [] :: split sep s'
      else match split sep s' with
           | [] => [[c]]
           | seg :: segs => (c :: seg) :: segs
           end
  end.

(** [s[:n]] for [n >= 0] *)
Definition slice_to (n : nat) (s : str) : str := take n s.
#[global] Arguments slice_to : simpl never.

(** truthiness of a string: [if s:] *)
Definition truthy (s : str) : bool :=
  match s with [] => false | _ => true end.

End Py.

Import Py.
Coercion Py.lit : string >-> list.

(** ** [CourseContentScraper.extract_folder_name]
    ([scripts/fixed_scraper.py], [firecrawl_scraper.py]) *)

Module Scraper.

Definition manifest : str := "imsmanifest.xml"%string.

(** The [for i, part in enumerate(path_parts)] loop.  [Some r] is the
    [return path_parts[i-1]] (with [r = None] for an [IndexError]);
    [None] is the loop running to its end. *)
Fixpoint manifest_loop (path_parts : list str) (i : nat) (todo : list str)
  : option (option str) :=
  match todo with
  | [] => None
  | part :: todo' =>
      if bool_decide (part = manifest) then
        if 0 <? i then Some (path_parts !! (i - 1))
        else manifest_loop path_parts (S i) todo'
      else manifest_loop path_parts (S i) todo'
  end.

Definition path_parts_of (url : str) : list str :=
  split "/" (rstrip_char "/" url).

(** [None] stands for an uncaught [IndexError]. *)
Definition extract_folder_name (url : str) : option str :=
  let path_parts := path_parts_of url in
  match manifest_loop path_parts 0 path_parts with
  | Some r => r
  | None =>
      if 2 <=? length path_parts
      then path_parts !! (length path_parts - 2)
      else Some (lit "course_content")
  end.

End Scraper.

(** ** Exceptions

    A Python computation either returns or raises; [try_except] is
    [try: body / except Exception as e: handler(e)]. *)

Module Exc.

Inductive exn := Exception (message : str).

Definition str_of_exn (e : exn) : str :=
  match e with Exception message => message end.

Inductive exc (A : Type) :=
  | Ret (a : A)
  | Raise (e : exn).
Arguments Ret {A} a.
Arguments Raise {A} e.

Definition bind {A B} (m : exc A) (k : A → exc B) : exc B :=
  match m with
  | Ret a => k a
  | Raise e => Raise e
  end.

Definition try_except {A} (body : exc A) (handler : exn → exc A) : exc A :=
  match body with
  | Ret a => Ret a
  | Raise e => handler e
  end.

(** Running a function over a list, left to right, stopping at the first
    exception that escapes it. *)
Fixpoint map_exc {A B} (f : A → exc B) (l : list A) : exc (list B) :=
  match l with
  | [] => Ret []
  | a :: l' => bind (f a) (λ b, bind (map_exc f l') (λ bs, Ret (b :: bs)))
  end.

End Exc.

Import Exc.

#[global] Instance exc_bind : MBind exc := λ A B k m, Exc.bind m k.
#[global] Instance exc_ret : MRet exc := λ A a, Ret a.

(** ** [scripts/extract_images_now.py] *)

Module Images.

(** A value produced by [json.loads]. *)
#[warnings="-register-all"]
Inductive json :=
  | JNull
  | JBool (b : bool)
  | JNumber (literal : str)
  | JString (s : str)
  | JArray (items : list json)
  | JObject (members : list (str * json)).

(** Files of the output tree: path to content. *)
Abbreviation files := (gmap str (list byte)).

(** [os.path.join(a, b)] (POSIX) *)
Definition os_path_join (a b : str) : str :=
  if startswith "/"%string b then b
  else if negb (truthy a) || endswith "/"%string a then a ++ b
  else a ++ lit "/" ++ b.

(** Lines 50-52: the name under which an image is stored. *)
Definition clean_filename (filename : str) : str :=
  let clean := replace "/" "_" filename in
  if negb (endswith ".png"%string clean) then clean ++ lit ".png" else clean.

(** *** The pattern [cp\.imagesJSONCache\d+\s*=\s*(\{.*?\});] with [re.DOTALL] *)

Definition cache_name : str := "cp.imagesJSONCache"%string.

(** [p] removed from the front of [s], when [s] starts with [p]. *)
Fixpoint strip_prefix (p s : str) : option str :=
  match p, s with
  | [], _ => Some s
  | _ :: _, [] => None
  | a :: p', c :: s' => if Ascii.eqb a c then strip_prefix p' s' else None
  end.

(** [.*?\});] read after the opening brace: the text up to and including
    the first closing brace that a semicolon follows. *)
Fixpoint lazy_close (s : str) : option str :=
  match s with
  | [] => None
  | c :: s' =>
      match Ascii.eqb c "}", s' with
      | true, next :: _ =>
          if Ascii.eqb next ";" then Some [c] else cons c <$> lazy_close s'
      | _, _ => cons c <$> lazy_close s'
      end
  end.

(** [cp\.imagesJSONCache\d+\s*=\s*\{] read at the start of [s]: the text
    after the opening brace.  A digit is neither whitespace nor the equals
    sign and whitespace is neither of the two delimiters, so the greedy
    runs never give a character back. *)
Definition match_open (s : str) : option str :=
  match strip_prefix cache_name s with
  | None => None
  | Some after_name =>
      match take_while isdigit after_name with
      | [] => None
      | _ :: _ =>
          match drop_while isspace (drop_while isdigit after_name) with
          | c :: after_eq =>
              if Ascii.eqb c "=" then
                match drop_while isspace after_eq with
                | b :: after_brace =>
                    if Ascii.eqb b "{" then Some after_brace else None
                | [] => None
                end
              else None
          | [] => None
          end
      end
  end.

(** The pattern tried at the start of [s]; the result is group 1. *)
Definition match_here (s : str) : option str :=
  match match_open s with
  | Some after_brace => cons "{"%char <$> lazy_close after_brace
  | None => None
  end.

(** [re.search(pattern, content, re.DOTALL)], then [match.group(1)]:
    the start positions are tried from left to right. *)
Fixpoint search (content : str) : option str :=
  match match_here content with
  | Some group1 => Some group1
  | None =>
      match content with
      | [] => None
      | _ :: content' => search content'
      end
  end.

(** *** The extraction *)

Record state := State { fs : files; extracted_count : nat }.

(** What [json.loads] does on a text that opens with a brace: it returns
    a [dict], given by its members in order; it raises
    [json.JSONDecodeError]; or it raises something else, as it does with
    [RecursionError] on deep nesting and with [ValueError] on an integer
    of too many digits. *)
Inductive loaded :=
  | Loaded (images_data : list (str * json))
  | DecodeError
  | LoadRaises (e : exn).

Section Extract.

Variable json_loads : str → loaded.

(** [base64.b64decode]: [None] when it raises. *)
Variable b64decode : str → option (list byte).

(** [open(output_path, 'wb')], line 62: whether the system opens the path
    for writing.  It raises [ValueError] for a path with a NUL character
    and [OSError] for a name that is too long.  Writing to the opened
    file is taken to succeed. *)
Variable open_wb : str → exc unit.

Definition b64decode_call (payload : str) : exc (list byte) :=
  match b64decode payload with
  | Some image_data => Ret image_data
  | None => Raise (Exception (lit "Invalid base64-encoded string"))
  end.

(** Lines 45-70: the body of the [try] of one iteration. *)
Definition entry_body (output_dir : str) (st : state)
    (filename : str) (base64_data : json) : exc state :=
  if negb (truthy (strip filename)) || bool_decide (filename = lit "___")
  then Ret st
  else
    let clean := clean_filename filename in
    match base64_data with
    | JString payload =>
        if truthy (strip payload) then
          image_data ← b64decode_call payload;
          if 100 <? length image_data then
            let output_path := os_path_join output_dir clean in
            _ ← open_wb output_path;
            Ret (State (<[output_path := image_data]> (fs st))
                       (S (extracted_count st)))
          else Ret st
        else Ret st
    | _ => Raise (Exception (lit "object has no attribute 'strip'"))
    end.

(** Lines 43-73: one iteration, with its [except Exception]. *)
Definition process_entry (output_dir : str) (st : state)
    (entry : str * json) : state :=
  match try_except (entry_body output_dir st entry.1 entry.2)
                   (λ _, Ret st) with
  | Ret st' => st'
  | Raise _ => st
  end.

Definition process_entries (output_dir : str) (images_data : list (str * json))
    (st : state) : state :=
  foldl (process_entry output_dir) st images_data.

(** [extract_images_from_json]; [file] is the text of [json_file_path],
    [None] when the path does not exist.  The result is the file tree
    afterwards, and the returned count or the exception that leaves the
    function: line 77 catches [json.JSONDecodeError] only. *)
Definition extract_images_from_json (file : option str) (output_dir : str)
    (tree : files) : files * exc nat :=
  match file with
  | None => (tree, Ret 0)
  | Some content =>
      match search content with
      | Some json_str =>
          match json_loads json_str with
          | Loaded images_data =>
              let st := process_entries output_dir images_data (State tree 0) in
              (fs st, Ret (extracted_count st))
          | DecodeError => (tree, Ret 0)
          | LoadRaises e => (tree, Raise e)
          end
      | None => (tree, Ret 0)
      end
  end.

End Extract.

End Images.

(** ** The standard library's base64 decoder

    [base64.b64decode(s)] on a [str], as CPython computes it: the text is
    encoded to ASCII, then [binascii.a2b_base64] runs in its default mode,
    which skips every character outside the alphabet, stops at a complete
    padding and rejects an incomplete last group.  The extractor's
    theorems hold for any decoder; this one runs the examples. *)

Module Base64.

Definition b64_value (c : ascii) : option N :=
  let n := N_of_ascii c in
  if ((65 <=? n) && (n <=? 90))%N then Some (n - 65)%N
  else if ((97 <=? n) && (n <=? 122))%N then Some (n - 71)%N
  else if ((48 <=? n) && (n <=? 57))%N then Some (n + 4)%N
  else if (n =? 43)%N then Some 62%N
  else if (n =? 47)%N then Some 63%N
  else None.

Definition byte_of_N (n : N) : byte := byte_of_ascii (ascii_of_N n).

Fixpoint a2b_loop (s : str) (quad_pos : nat) (leftchar : N) (pads : nat)
    (bin_data : list byte) : option (list byte) :=
  match s with
  | [] => if quad_pos =? 0 then Some bin_data else None
  | this_ch :: s' =>
      if Ascii.eqb this_ch "=" then
        if 2 <=? quad_pos then
          if 4 <=? quad_pos + S pads then Some bin_data
          else a2b_loop s' quad_pos leftchar (S pads) bin_data
        else a2b_loop s' quad_pos leftchar pads bin_data
      else
        match b64_value this_ch with
        | None => a2b_loop s' quad_pos leftchar pads bin_data
        | Some v =>
            match quad_pos with
            | 0 => a2b_loop s' 1 v 0 bin_data
            | 1 =>
                a2b_loop s' 2 (N.land v 15) 0
                  (bin_data ++ [byte_of_N (N.lor (N.shiftl leftchar 2)
                                                 (N.shiftr v 4))])
            | 2 =>
                a2b_loop s' 3 (N.land v 3) 0
                  (bin_data ++ [byte_of_N (N.lor (N.shiftl leftchar 4)
                                                 (N.shiftr v 2))])
            | _ =>
                a2b_loop s' 0 0%N 0
                  (bin_data ++ [byte_of_N (N.lor (N.shiftl leftchar 6) v)])
            end
        end
  end.

Definition b64decode (s : str) : option (list byte) :=
  if forallb (λ c, (N_of_ascii c <? 128)%N) s
  then a2b_loop s 0 0%N 0 []
  else None.

End Base64.

(** ** [scripts/extract_bad_modules_csv.py] and the loader of
    [scripts/scrape_bad_modules.py] *)

Module BadModules.

(** A text file is the list of the lines its iterator yields, or [None]
    when the path does not exist. *)
Abbreviation text_file := (option (list str)).

(** The test of lines 18 / 21: [lesson_id and not lesson_id.startswith('#')] *)
Definition keeps (lesson_id : str) : bool :=
  truthy lesson_id && negb (startswith "#"%string lesson_id).

(** [scrape_bad_modules.py], [load_bad_modules_list]: a list, built by
    [append]. *)
Definition load_bad_modules_list (bad_modules_txt : text_file) : list str :=
  match bad_modules_txt with
  | None => []
  | Some lines =>
      foldl (λ bad_modules line,
               let lesson_id := strip line in
               if keeps lesson_id then bad_modules ++ [lesson_id]
               else bad_modules)
            [] lines
  end.

(** [extract_bad_modules_csv.py], [load_bad_modules_list]: a set, built by
    [add]. *)
Definition load_bad_modules_set (bad_modules_txt : text_file) : gset str :=
  match bad_modules_txt with
  | None => ∅
  | Some lines =>
      foldl (λ bad_modules line,
               let lesson_id := strip line in
               if keeps lesson_id then bad_modules ∪ {[lesson_id]}
               else bad_modules)
            ∅ lines
  end.

(** A row of [csv.DictReader] over a rectangular file: column to field. *)
Abbreviation row := (gmap str str).

(** [d.get(key, default)] *)
Definition dict_get (d : row) (key default : str) : str :=
  match d !! key with
  | Some v => v
  | None => default
  end.

(** A CSV file: its [fieldnames] and its rows, or [None] when the path
    does not exist. *)
Abbreviation csv_file := (option (list str * list row)).

(** *** [extract_bad_modules_csv.py]: the rows as [csv.DictReader]
    yields them *)

(** A CSV file as [csv.reader] reads it: the fields of each line, the
    empty list for a blank line; [None] when the path does not exist. *)
Abbreviation csv_lines := (option (list (list str))).

(** A row of [csv.DictReader]: each column of the header bound to the
    field of the line, or to [None] where the line ends before the
    column; the fields beyond the last column under the key [None], when
    the line has more fields than the header. *)
Record reader_row := ReaderRow {
  named : gmap str (option str);
  restkey : option (list str)
}.

(** [DictReader.__next__] on a line that is not blank:
    [dict(zip(fieldnames, row))], then the rest under [None] or [None]
    for the columns the line does not reach. *)
Definition dict_reader_row (fieldnames line : list str) : reader_row :=
  let d := foldl (λ d kv, <[kv.1 := Some kv.2]> d) ∅ (zip fieldnames line) in
  let lf := length fieldnames in
  let lr := length line in
  if lf <? lr then ReaderRow d (Some (drop lf line))
  else ReaderRow (foldl (λ d key, <[key := None]> d) d (drop lr fieldnames))
                 None.

(** The rows the reader yields after the header; blank lines are passed
    over. *)
Definition dict_reader_rows (fieldnames : list str)
    (lines : list (list str)) : list reader_row :=
  dict_reader_row fieldnames <$> filter (λ line, line ≠ []) lines.

(** The rows of a file: none when there is no file or no header line. *)
Definition rows_read (main_csv : csv_lines) : list reader_row :=
  match main_csv with
  | Some (fieldnames :: lines) => dict_reader_rows fieldnames lines
  | _ => []
  end.

(** [row.get("lessonID", "").strip()], line 57: [None] has no [strip]. *)
Definition lesson_id_of (r : reader_row) : exc str :=
  match named r !! lit "lessonID" with
  | Some (Some field) => Ret (strip field)
  | Some None =>
      Raise (Exception (lit "'NoneType' object has no attribute 'strip'"))
  | None => Ret (strip [])
  end.

Record filter_state := FilterState {
  matching_rows : list reader_row;
  found_lesson_ids : gset str;
  total_rows : nat
}.

(** Lines 55-62: one iteration over the reader. *)
Definition filter_row (bad_modules : gset str) (st : filter_state)
    (r : reader_row) : exc filter_state :=
  let total := S (total_rows st) in
  lesson_id ← lesson_id_of r;
  if decide (lesson_id ∈ bad_modules) then
    Ret (FilterState (matching_rows st ++ [r])
                     (found_lesson_ids st ∪ {[lesson_id]}) total)
  else
    Ret (FilterState (matching_rows st) (found_lesson_ids st) total).

(** Lines 55-62: the loop over the rows that are left. *)
Fixpoint filter_rows_from (bad_modules : gset str) (st : filter_state)
    (rows : list reader_row) : exc filter_state :=
  match rows with
  | [] => Ret st
  | r :: rest =>
      st' ← filter_row bad_modules st r;
      filter_rows_from bad_modules st' rest
  end.

(** The field [DictWriter] writes for a column: the value of the row,
    the empty text for [None]. *)
Definition written_field (r : reader_row) (key : str) : str :=
  match named r !! key with
  | Some (Some field) => field
  | _ => []
  end.

(** [writer.writerow(row)], line 98, for a row of the reader and the
    header it was read with: a [ValueError] for a row with the key
    [None], which is no column; else the fields in column order. *)
Definition writerow (fieldnames : list str) (r : reader_row)
  : exc (list str) :=
  match restkey r with
  | Some _ =>
      Raise (Exception (lit "dict contains fields not in fieldnames: None"))
  | None => Ret (written_field r <$> fieldnames)
  end.

(** Lines 97-98: the lines written, and the exception that ended the
    loop, if one did. *)
Fixpoint write_rows (fieldnames : list str) (rows : list reader_row)
  : list (list str) * option exn :=
  match rows with
  | [] => ([], None)
  | r :: rest =>
      match writerow fieldnames r with
      | Raise e => ([], Some e)
      | Ret line =>
          let later := write_rows fieldnames rest in
          (line :: later.1, later.2)
      end
  end.

(** What a run of the filter leaves: the lines of the file it wrote,
    header first, [None] when it created no file; and the exception that
    ended it, if one did. *)
Record filter_run := FilterRun {
  output : option (list (list str));
  raised : option exn
}.

(** [extract_bad_modules_csv] *)
Definition extract_bad_modules_csv (bad_modules_txt : text_file)
    (main_csv : csv_lines) : filter_run :=
  let bad_modules := load_bad_modules_set bad_modules_txt in
  if decide (bad_modules = ∅) then FilterRun None None
  else
    match main_csv with
    | None => FilterRun None None
    | Some [] => FilterRun None None
    | Some (fieldnames :: lines) =>
        match filter_rows_from bad_modules (FilterState [] ∅ 0)
                (dict_reader_rows fieldnames lines) with
        | Raise e => FilterRun None (Some e)
        | Ret st =>
            match matching_rows st with
            | [] => FilterRun None None
            | _ :: _ =>
                let written := write_rows fieldnames (matching_rows st) in
                FilterRun (Some (fieldnames :: written.1)) written.2
            end
        end
    end.

(** The lines of the written file after its header. *)
Definition lines_written (run : filter_run) : list (list str) :=
  match output run with
  | Some (_ :: lines) => lines
  | _ => []
  end.

(** *** The rows as the loaders of the scrapers take them *)


End BadModules.

(** ** [scripts/parallel_scraper_full.py], [scripts/scrape_bad_modules.py],
    [scripts/parallel_scraper_demo.py] *)

Module Parallel.

(** The dictionaries of [load_all_urls]; [load_matching_urls_from_csv]
    adds the two course fields. *)
Record url_data := UrlData {
  url : str;
  lesson_id : str;
  lesson_name : str;
  course_id : option str;
  course_name : option str
}.

(** [(url_data, api_key, worker_id, batch_num)] *)
Abbreviation task := (url_data * str * nat * nat)%type.

(** [a % b] and [a // b] on non-negative integers *)
Definition py_mod (a b : nat) : exc nat :=
  if b =? 0 then Raise (Exception (lit "integer modulo by zero"))
  else Ret (a mod b).

Definition py_floordiv (a b : nat) : exc nat :=
  if b =? 0 then Raise (Exception (lit "integer division or modulo by zero"))
  else Ret (a / b).

(** [l[i]] for [i >= 0] *)
Definition py_index {A} (l : list A) (i : nat) : exc A :=
  match l !! i with
  | Some a => Ret a
  | None => Raise (Exception (lit "list index out of range"))
  end.

(** [l[start:stop]] for [0 <= start], [0 <= stop] *)
Definition py_slice {A} (l : list A) (start stop : nat) : list A :=
  take (stop - start) (drop start l).

Section Scrape.

(** The type of [time.time()] differences. *)
Variable float : Type.

(** [CourseContentScraper(api_key).process_course_url(url)]: it returns
    or raises.  [time_spent] is what the clock measures around it. *)
Variable process_course_url : str → str → exc unit.
Variable time_spent : str → str → float.

(** The result dictionaries; [error] is present on failure only, the
    course fields in [scrape_bad_modules.py] only. *)
Record result := Result {
  r_batch_num : nat;
  r_worker_id : nat;
  r_lesson_id : str;
  r_status : str;
  r_duration : float;
  r_error : option str;
  r_api_key : str;
  r_course_id : option str;
  r_course_name : option str
}.

(** [parallel_scraper_full.py], lines 30-74. *)
Definition scrape_single_course (args : task) : exc result :=
  let '(url_data, api_key, worker_id, batch_num) := args in
  let lesson_id := lesson_id url_data in
  try_except
    (_ ← process_course_url api_key (url url_data);
     let duration := time_spent api_key (url url_data) in
     Ret (Result batch_num worker_id lesson_id (lit "success") duration
                 None (slice_to 20 api_key ++ lit "...") None None))
    (λ e,
       let duration := time_spent api_key (url url_data) in
       let error_msg := slice_to 200 (str_of_exn e) in
       Ret (Result batch_num worker_id lesson_id (lit "failed") duration
                   (Some error_msg) (slice_to 20 api_key ++ lit "...")
                   None None)).

(** [d.get(key, "")] on an optional field of [url_data] *)
Definition get_or_empty (field : option str) : str :=
  match field with
  | Some v => v
  | None => []
  end.

(** [scrape_bad_modules.py], lines 74-122. *)
Definition scrape_single_course_bad (args : task) : exc result :=
  let '(url_data, api_key, worker_id, batch_num) := args in
  let lesson_id := lesson_id url_data in
  try_except
    (_ ← process_course_url api_key (url url_data);
     let duration := time_spent api_key (url url_data) in
     Ret (Result batch_num worker_id lesson_id (lit "success") duration
                 None (slice_to 20 api_key ++ lit "...")
                 (Some (get_or_empty (course_id url_data)))
                 (Some (get_or_empty (course_name url_data)))))
    (λ e,
       let duration := time_spent api_key (url url_data) in
       let error_msg := slice_to 200 (str_of_exn e) in
       Ret (Result batch_num worker_id lesson_id (lit "failed") duration
                   (Some error_msg) (slice_to 20 api_key ++ lit "...")
                   (Some (get_or_empty (course_id url_data)))
                   (Some (get_or_empty (course_name url_data))))).

(** Lines 93-98: the tasks of a batch; [i] is the index of the head of
    [batch_urls] in the batch. *)
Fixpoint batch_tasks_from (i : nat) (batch_urls : list url_data)
    (api_keys : list str) (batch_num : nat) : exc (list task) :=
  match batch_urls with
  | [] => Ret []
  | url_data :: rest =>
      k ← py_mod i (length api_keys);
      api_key ← py_index api_keys k;
      let worker_id := i + 1 in
      tasks ← batch_tasks_from (S i) rest api_keys batch_num;
      Ret ((url_data, api_key, worker_id, batch_num) :: tasks)
  end.

Definition batch_tasks := batch_tasks_from 0.

(** What [process_batch] computes: its [tasks], its [max_workers] and the
    [batch_results] it returns. *)
Record batch_run := BatchRun {
  run_tasks : list task;
  run_max_workers : nat;
  run_results : list result
}.

(** [ThreadPoolExecutor(max_workers=n)] followed by
    [list(executor.map(worker, tasks))]: the results in the order of the
    tasks; the constructor rejects [n <= 0]. *)
Definition executor_map (max_workers : nat) (worker : task → exc result)
    (tasks : list task) : exc (list result) :=
  if max_workers =? 0
  then Raise (Exception (lit "max_workers must be greater than 0"))
  else map_exc worker tasks.

(** [process_batch], lines 76-132 (the printing and the sleep left out). *)
Definition process_batch (worker : task → exc result)
    (batch_urls : list url_data) (api_keys : list str) (batch_num : nat)
  : exc batch_run :=
  tasks ← batch_tasks batch_urls api_keys batch_num;
  let max_workers := min (length batch_urls) (length api_keys) in
  batch_results ← executor_map max_workers worker tasks;
  Ret (BatchRun tasks max_workers batch_results).

(** [main], lines 196-198: the URLs of batch [batch_num]. *)
Definition batch_urls_of (urls : list url_data) (batch_size batch_num : nat)
  : list url_data :=
  let start_idx := (batch_num - 1) * batch_size in
  let end_idx := min (start_idx + batch_size) (length urls) in
  py_slice urls start_idx end_idx.

(** The [for batch_num in range(1, total_batches + 1)] loop over the
    remaining batch numbers. *)
Fixpoint batch_loop (worker : task → exc result) (urls : list url_data)
    (api_keys : list str) (batch_size : nat) (batch_nums : list nat)
  : exc (list batch_run) :=
  match batch_nums with
  | [] => Ret []
  | batch_num :: later =>
      let batch_urls := batch_urls_of urls batch_size batch_num in
      run ← process_batch worker batch_urls api_keys batch_num;
      runs ← batch_loop worker urls api_keys batch_size later;
      Ret (run :: runs)
  end.

(** [main], lines 162-202: the batches processed, in order. *)
Definition main_batches (worker : task → exc result) (urls : list url_data)
    (api_keys : list str) : exc (list batch_run) :=
  let batch_size := length api_keys in
  total_batches ← py_floordiv (length urls + batch_size - 1) batch_size;
  batch_loop worker urls api_keys batch_size (seq 1 total_batches).

(** [all_results] of [main]: every [extend] in order. *)
Definition all_results (runs : list batch_run) : list result :=
  concat (run_results <$> runs).

(** Every task created during the run, in order of creation. *)
Definition all_tasks (runs : list batch_run) : list task :=
  concat (run_tasks <$> runs).

End Scrape.


Fixpoint demo_tasks_from (i : nat) (urls : list url_data) (api_keys : list str)
  : exc (list (url_data * str * nat)) :=
  match urls with
  | [] => Ret []
  | url_data :: rest =>
      k ← py_mod i (length api_keys);
      api_key ← py_index api_keys k;
      tasks ← demo_tasks_from (S i) rest api_keys;
      Ret ((url_data, api_key, i + 1) :: tasks)
  end.


End Parallel.

(** ** Sample data for the examples *)

Module Samples.

Import Images Parallel.

(** 136 base64 characters, which decode to 102 zero bytes. *)
Definition payload_102 : str := repeat "A"%char 136.

Definition images_data : list (str * json) :=
  [ (lit "img/a", JString payload_102);
    (lit "___", JString payload_102);
    (lit "b.png", JString (lit "QUJD"));
    (lit "c", JString (lit "A"));
    (lit "d", JNumber (lit "1"));
    (lit "e", JString (lit "   "));
    (lit "img_a", JString (payload_102 ++ lit "AAAA")) ].

Definition cache_text : str :=
  lit "var cp = cp || {}; cp.imagesJSONCache7 = {sample}; cp.done = 1;".

(** A span that is no JSON text: an object whose value opens 5000
    arrays and closes none.  [json.loads] gives up on it with a
    [RecursionError]. *)
Definition deep_span : str :=
  let quote := ascii_of_nat 34 in
  lit "{" ++ [quote] ++ lit "a" ++ [quote] ++ lit ": "
  ++ repeat "["%char 5000 ++ lit "}".

Definition deep_text : str :=
  lit "cp.imagesJSONCache1 = " ++ deep_span ++ lit ";".

(** A parser that knows two texts. *)
Definition json_loads (span : str) : loaded :=
  if bool_decide (span = lit "{sample}") then Loaded images_data
  else if bool_decide (span = deep_span) then
    LoadRaises
      (Exception
         (lit "maximum recursion depth exceeded while decoding a JSON array from a unicode string"))
  else DecodeError.

(** A system that opens every path but those with a NUL character. *)
Definition open_wb (path : str) : exc unit :=
  if bool_decide (Ascii.zero ∈ path)
  then Raise (Exception (lit "embedded null byte"))
  else Ret ().

Definition urls : list url_data :=
  [ UrlData (lit "https://host/c0/imsmanifest.xml") (lit "L0") (lit "zero")
      None None;
    UrlData (lit "https://host/c1/imsmanifest.xml") (lit "L1") (lit "one")
      None None;
    UrlData (lit "https://host/c2/imsmanifest.xml") (lit "L2") (lit "two")
      None None ].

Definition api_keys : list str := [lit "fc-key-0"; lit "fc-key-1"].

(** A scraping service that fails on one course. *)
Definition process_course_url (api_key url : str) : exc unit :=
  if bool_decide (url = lit "https://host/c1/imsmanifest.xml")
  then Raise (Exception (lit "403 Forbidden"))
  else Ret ().

Definition time_spent (api_key url : str) : nat := 1.

(** A bad-modules file and a main CSV of three lessons. *)
Definition bad_modules_txt : BadModules.text_file :=
  Some [lit "# failed on the first pass"; lit "  L-100 "; lit "";
        lit "L-300"; lit "L-100"; lit "L-999"].

Definition main_csv : BadModules.csv_lines :=
  Some [ [lit "lessonID"; lit "link"];
         [lit "L-100"; lit "https://host/c100/imsmanifest.xml"];
         [lit "L-200"; lit "https://host/c200/imsmanifest.xml"];
         [];
         [lit " L-300"; lit "https://host/c300/imsmanifest.xml"];
         [lit "L-400"] ].

(** A main CSV whose third line has one field too many. *)
Definition long_line_csv : BadModules.csv_lines :=
  Some [ [lit "lessonID"; lit "link"];
         [lit "L-100"; lit "https://host/c100/imsmanifest.xml"];
         [lit "L-300"; lit "https://host/c300/imsmanifest.xml"; lit "x"];
         [lit "L-100"; lit "https://host/c101/imsmanifest.xml"] ].

End Samples.

(** ** Statements taken from the specification *)

Module Claims.

Import Scraper.

(** [x] occurs in [l] at index [j] and at no smaller index. *)
Definition first_occurrence (x : str) (l : list str) (j : nat) : Prop :=
  l !! j = Some x ∧ ∀ k, k < j → l !! k ≠ Some x.

(** [x] occurs in [l] at index [j], and at no smaller index other than 0. *)
Definition first_preceded_occurrence (x : str) (l : list str) (j : nat) : Prop :=
  0 < j ∧ l !! j = Some x ∧ ∀ k, 0 < k < j → l !! k ≠ Some x.

(** Some segment other than the first one is the manifest name. *)
Definition manifest_preceded (parts : list str) : Prop :=
  ∃ i, 0 < i ∧ parts !! i = Some manifest.

(** The folder-name rule in the words of the specification: the segment
    before the first occurrence of the manifest name, else the
    second-to-last segment, else the fallback. *)
Definition folder_name_claim (url : str) : Prop :=
  let parts := path_parts_of url in
  (manifest_preceded parts →
     ∃ j name, first_occurrence manifest parts (S j) ∧
               parts !! j = Some name ∧
               extract_folder_name url = Some name)
  ∧ (¬ manifest_preceded parts → 2 ≤ length parts →
       extract_folder_name url = parts !! (length parts - 2))
  ∧ (¬ manifest_preceded parts → length parts < 2 →
       extract_folder_name url = Some (lit "course_content")).

(** A stripped line that the loaders keep: not empty and not a comment. *)
Definition is_lesson_id (lesson_id : str) : Prop :=
  lesson_id ≠ [] ∧ startswith (lit "#") lesson_id = false.

#[global] Instance is_lesson_id_dec lesson_id : Decision (is_lesson_id lesson_id).
Proof. unfold is_lesson_id. apply _. Defined.

(** The lines of a text file, none when the path does not exist. *)
Definition lines_of (f : BadModules.text_file) : list str := default [] f.

(** The stripped [lessonID] of a row is one of the bad modules. *)
Definition row_matches (bad_modules : gset str) (r : BadModules.reader_row)
  : Prop :=
  match BadModules.lesson_id_of r with
  | Ret lesson_id => lesson_id ∈ bad_modules
  | Raise _ => False
  end.

#[global] Instance row_matches_dec bad_modules r :
  Decision (row_matches bad_modules r).
Proof.
  unfold row_matches. destruct (BadModules.lesson_id_of r); apply _.
Defined.

(** The line [DictWriter] writes for a row. *)
Definition line_of (fieldnames : list str) (r : BadModules.reader_row)
  : list str :=
  BadModules.written_field r <$> fieldnames.

(** The header of a file. *)
Definition header_of (main_csv : BadModules.csv_lines) : list str :=
  match main_csv with
  | Some (fieldnames :: _) => fieldnames
  | _ => []
  end.

(** The rule of the specification for the filter, as it is worded: the
    lines written are those of the matching rows of the main CSV, in
    order, and no matching row is dropped. *)
Definition writes_matching_rows (bad_modules_txt : BadModules.text_file)
    (main_csv : BadModules.csv_lines) : Prop :=
  BadModules.lines_written
    (BadModules.extract_bad_modules_csv bad_modules_txt main_csv)
  = line_of (header_of main_csv)
    <$> filter (row_matches (BadModules.load_bad_modules_set bad_modules_txt))
               (BadModules.rows_read main_csv).

(** The line reaches the [lessonID] column, or the header has none. *)
Definition has_lesson_id (r : BadModules.reader_row) : Prop :=
  BadModules.named r !! lit "lessonID" ≠ Some None.

(** A matching row has no more fields than the header. *)
Definition fits_header (bad_modules : gset str) (r : BadModules.reader_row)
  : Prop :=
  row_matches bad_modules r → BadModules.restkey r = None.

(** The stripped [lessonID] of a row that has one. *)
Definition stripped_id (r : BadModules.reader_row) : str :=
  match BadModules.lesson_id_of r with
  | Ret lesson_id => lesson_id
  | Raise _ => []
  end.

(** A worker that returns a record on every task. *)
Definition total_worker {float : Type}
    (worker : Parallel.task → exc (Parallel.result float)) : Prop :=
  ∀ args, ∃ r, worker args = Ret r.

(** What one successful [process_batch] call leaves in its record. *)
Definition batch_run_ok {float : Type}
    (worker : Parallel.task → exc (Parallel.result float))
    (urls : list Parallel.url_data) (api_keys : list str)
    (batch_num : nat) (run : Parallel.batch_run float) : Prop :=
  let batch_urls :=
    Parallel.batch_urls_of urls (length api_keys) batch_num in
  Parallel.batch_tasks batch_urls api_keys batch_num
  = Ret (Parallel.run_tasks float run) ∧
  Parallel.run_max_workers float run
  = min (length batch_urls) (length api_keys) ∧
  Forall2 (λ args r, worker args = Ret r)
          (Parallel.run_tasks float run) (Parallel.run_results float run).




(** The head of a string, when there is one, fails [p]. *)
Definition stops (p : ascii → bool) (r : str) : Prop :=
  match r with
  | [] => True
  | c :: _ => p c = false
  end.

(** The entry passes every test of the loop body and decodes to
    [image_data]: its name is not blank and not the placeholder, its
    payload is a string that is not blank, and the decoded bytes number
    more than 100. *)
Definition accepted (b64decode : str → option (list byte))
    (entry : str * Images.json) (image_data : list byte) : Prop :=
  strip entry.1 ≠ [] ∧ entry.1 ≠ lit "___" ∧
  ∃ payload,
    entry.2 = Images.JString payload ∧ strip payload ≠ [] ∧
    b64decode payload = Some image_data ∧ 100 < length image_data.

(** The system opens the path of the entry for writing. *)
Definition opens (open_wb : str → exc unit) (output_dir : str)
    (entry : str * Images.json) : bool :=
  match open_wb (Images.os_path_join output_dir
                   (Images.clean_filename entry.1)) with
  | Ret _ => true
  | Raise _ => false
  end.

(** The file an entry contributes: that of an accepted entry whose path
    the system opens. *)
Definition entry_write (b64decode : str → option (list byte))
    (open_wb : str → exc unit)
    (output_dir : str) (entry : str * Images.json)
  : option (str * list byte) :=
  match entry.2 with
  | Images.JString payload =>
      match b64decode payload with
      | Some image_data =>
          if decide (strip entry.1 ≠ [] ∧ entry.1 ≠ lit "___" ∧
                     strip payload ≠ [] ∧ 100 < length image_data)
          then
            if opens open_wb output_dir entry
            then Some (Images.os_path_join output_dir
                         (Images.clean_filename entry.1), image_data)
            else None
          else None
      | None => None
      end
  | _ => None
  end.

(** Writing one file into the tree. *)
Definition write_file (tree : Images.files) (w : str * list byte)
  : Images.files :=
  <[w.1 := w.2]> tree.




End Claims.

(** ** More of the scraper: base URL, JSON file names
    ([scripts/fixed_scraper.py], [firecrawl_scraper.py]) *)

Module Urls.

(** The last occurrence of [sep] in [s]: what is before it and what is
    after it. *)
Fixpoint rsplit_last (sep : ascii) (s : str) : option (str * str) :=
  match s with
  | [] => None
  | c :: s' =>
      match rsplit_last sep s' with
      | Some (before, after) => Some (c :: before, after)
      | None => if Ascii.eqb c sep then Some ([], s') else None
      end
  end.

(** [s.rsplit(sep, 1)] for a one-character separator *)
Definition rsplit1 (sep : ascii) (s : str) : list str :=
  match rsplit_last sep s with
  | Some (before, after) => [before; after]
  | None => [s]
  end.

(** [get_base_url]: [url.rsplit('/', 1)[0] + '/'] *)
Definition get_base_url (url : str) : exc str :=
  before ← Parallel.py_index (rsplit1 "/" url) 0;
  Ret (before ++ lit "/").

(** [str(i)] for [i >= 0] *)
Definition str_of_int (i : nat) : str := lit (pretty i).

(** [get_fallback_json_files(max_files)] *)
Definition get_fallback_json_files (max_files : nat) : list str :=
  let json_files :=
    foldl (λ json_files i,
             json_files ++ [lit "dr/img" ++ str_of_int i ++ lit ".json"])
          [] (seq 1 max_files) in
  json_files ++ [lit "dr/imgmd.json"; lit "dr/metadata.json"].

(** [process_course_url], the safe file name of a JSON file:
    [json_file.replace('/', '_').replace('\\', '_')] *)
Definition safe_filename (json_file : str) : str :=
  replace "\" "_" (replace "/" "_" json_file).

(** *** [find_json_files_from_manifest]: the pattern [dr/img\w*\.json]
    with [re.IGNORECASE] *)

(** [\w] on one character: the code points below 256 that CPython counts
    as alphanumeric, and the underscore. *)
Definition isword (c : ascii) : bool :=
  let n := nat_of_ascii c in
  ((48 <=? n) && (n <=? 57)) || ((65 <=? n) && (n <=? 90)) || (n =? 95)
  || ((97 <=? n) && (n <=? 122)) || (n =? 170) || (n =? 178) || (n =? 179)
  || (n =? 181) || (n =? 185) || (n =? 186) || ((188 <=? n) && (n <=? 190))
  || ((192 <=? n) && (n <=? 214)) || ((216 <=? n) && (n <=? 246))
  || ((248 <=? n) && (n <=? 255)).

(** The lower-case form of an ASCII capital; the letters of the pattern
    have no other case variant below 256. *)
Definition lower (c : ascii) : ascii :=
  let n := nat_of_ascii c in
  if (65 <=? n) && (n <=? 90) then ascii_of_nat (n + 32) else c.

Definition eqb_nocase (a c : ascii) : bool := Ascii.eqb (lower a) (lower c).

(** The literal [p] read without regard to case at the start of [s]: the
    text it matched and what follows. *)
Fixpoint strip_prefix_nocase (p s : str) : option (str * str) :=
  match p, s with
  | [], _ => Some ([], s)
  | _ :: _, [] => None
  | a :: p', c :: s' =>
      if eqb_nocase a c then
        match strip_prefix_nocase p' s' with
        | Some (matched, after) => Some (c :: matched, after)
        | None => None
        end
      else None
  end.

(** The pattern tried at the start of [s]: the text of the match.  A word
    character is not a dot, so the greedy [\w*] never gives one back. *)
Definition match_json_here (s : str) : option str :=
  match strip_prefix_nocase (lit "dr/img") s with
  | Some (head, after) =>
      match strip_prefix_nocase (lit ".json") (drop_while isword after) with
      | Some (ext, _) => Some (head ++ take_while isword after ++ ext)
      | None => None
      end
  | None => None
  end.

(** [re.findall]: the matches from left to right, each search starting
    where the match before ended; [skip] counts the characters of [s] that
    the last match still covers. *)
Fixpoint findall_from (skip : nat) (s : str) : list str :=
  match s with
  | [] => []
  | _ :: s' =>
      match skip with
      | S skip' => findall_from skip' s'
      | 0 =>
          match match_json_here s with
          | Some m => m :: findall_from (length m - 1) s'
          | None => findall_from 0 s'
          end
      end
  end.

Definition findall_json (text : str) : list str := findall_from 0 text.

(** [a <= b] on strings: by code point, a proper prefix first. *)
Fixpoint str_leb (a b : str) : bool :=
  match a, b with
  | [], _ => true
  | _ :: _, [] => false
  | x :: a', y :: b' =>
      if nat_of_ascii x <? nat_of_ascii y then true
      else if nat_of_ascii y <? nat_of_ascii x then false
      else str_leb a' b'
  end.

Definition str_le (a b : str) : Prop := str_leb a b = true.

#[global] Instance str_le_dec a b : Decision (str_le a b).
Proof. unfold str_le. apply _. Defined.

(** [sorted(l)] on strings *)
Definition py_sorted (l : list str) : list str := merge_sort str_le l.

(** What [scrape_url] returned for the manifest: the [markdown] and
    [html] attributes, [None] when absent. *)
Record scrape_result := ScrapeResult {
  markdown : option str;
  html : option str
}.

(** [hasattr(x, a) and x.a], then [text_content += x.a] *)
Definition add_text (text_content : str) (attribute : option str) : str :=
  match attribute with
  | Some text => if truthy text then text_content ++ text else text_content
  | None => text_content
  end.

Definition find_json_files_from_manifest (xml_content : scrape_result)
  : list str :=
  let text_content := add_text [] (markdown xml_content) in
  let text_content := add_text text_content (html xml_content) in
  let matches := findall_json text_content in
  py_sorted (elements (list_to_set matches : gset str)).

(** [process_course_url], lines 196-201: the JSON files to fetch. *)
Definition json_files_to_fetch (xml_content : scrape_result) : list str :=
  let json_files := find_json_files_from_manifest xml_content in
  match json_files with
  | [] => get_fallback_json_files 50
  | _ :: _ => json_files
  end.

(** [PurePath.suffix] of a final path component [name]: the text from
    the last dot on, unless that dot is the first or the last character
    of the name. *)
Definition suffix (name : str) : str :=
  match rsplit_last "." name with
  | Some (before, after) =>
      if truthy before && truthy after then "."%char :: after else []
  | None => []
  end.

(** [PurePath.with_suffix] on the final component [name] of a path, a
    name that is not empty and holds no separator. *)
Definition with_suffix (name new_suffix : str) : str :=
  let old_suffix := suffix name in
  if negb (truthy old_suffix) then name ++ new_suffix
  else take (length name - length old_suffix) name ++ new_suffix.

(** [process_course_url], lines 198-218: the name, inside the JSON
    folder, of the file the content of [json_file] is written to. *)
Definition json_file_name (json_file : str) : str :=
  with_suffix (safe_filename json_file) (lit ".json").

End Urls.

(** ** The loaders of the parallel scrapers
    ([scripts/parallel_scraper_full.py], [scripts/scrape_bad_modules.py]) *)

Module Loaders.

Import BadModules Parallel.

(** [row[key]]: a [KeyError] when the column is absent. *)
Definition py_getitem (r : row) (key : str) : exc str :=
  match r !! key with
  | Some v => Ret v
  | None => Raise (Exception (lit "'" ++ key ++ lit "'"))
  end.

(** [load_api_keys]: [[line.strip() for line in f if line.strip()]];
    opening a missing file raises. *)
Definition load_api_keys (api_keys_txt : text_file) : exc (list str) :=
  match api_keys_txt with
  | None =>
      Raise (Exception
               (lit "[Errno 2] No such file or directory: 'API keys.txt'"))
  | Some lines =>
      Ret (foldl (λ keys line,
                    if truthy (strip line) then keys ++ [strip line] else keys)
                 [] lines)
  end.

(** [limit and n >= limit], for the [--limit] argument (an [int] or
    [None]). *)
Definition limit_reached (limit : option Z) (n : nat) : bool :=
  match limit with
  | None => false
  | Some z => negb (z =? 0)%Z && (z <=? Z.of_nat n)%Z
  end.

(** [load_all_urls(limit)], lines 14-22: the loop from row [i] on. *)
Fixpoint load_all_urls_from (i : nat) (limit : option Z) (rows : list row)
  : exc (list url_data) :=
  match rows with
  | [] => Ret []
  | r :: rest =>
      if limit_reached limit i then Ret []
      else
        link ← py_getitem r (lit "link");
        lesson_id ← py_getitem r (lit "lessonID");
        lesson_name ← py_getitem r (lit "lessonname");
        urls ← load_all_urls_from (S i) limit rest;
        Ret (UrlData link lesson_id lesson_name None None :: urls)
  end.

Definition load_all_urls (limit : option Z) (csv : csv_file)
  : exc (list url_data) :=
  match csv with
  | None =>
      Raise (Exception
               (lit "[Errno 2] No such file or directory: 'bad_modules_filtered_962courses_1750444941.csv'"))
  | Some (_, rows) => load_all_urls_from 0 limit rows
  end.

(** [load_matching_urls_from_csv], lines 42-56: the loop, with the
    [matching_urls] found so far. *)
Fixpoint matching_loop (bad_modules_set : gset str) (limit : option Z)
    (matching_urls : list url_data) (rows : list row)
  : exc (list url_data) :=
  match rows with
  | [] => Ret matching_urls
  | r :: rest =>
      lesson_id ← py_getitem r (lit "lessonID");
      if decide (lesson_id ∈ bad_modules_set) then
        if limit_reached limit (length matching_urls) then Ret matching_urls
        else
          link ← py_getitem r (lit "link");
          lesson_name ← py_getitem r (lit "lessonname");
          course_id ← py_getitem r (lit "courseid");
          course_name ← py_getitem r (lit "coursename");
          matching_loop bad_modules_set limit
            (matching_urls
               ++ [UrlData link lesson_id lesson_name
                     (Some course_id) (Some course_name)])
            rest
      else matching_loop bad_modules_set limit matching_urls rest
  end.

Definition load_matching_urls_from_csv (bad_modules_list : list str)
    (limit : option Z) (csv : csv_file) : exc (list url_data) :=
  match csv with
  | None => Ret []
  | Some (_, rows) =>
      matching_loop (list_to_set bad_modules_list) limit [] rows
  end.

End Loaders.

(** ** The summary of the CSV filter
    ([scripts/extract_bad_modules_csv.py], lines 47-72) *)

Module Summary.

Import BadModules.

(** Lines 47-62: the loop over the reader, from the empty state. *)
Definition filter_rows (bad_modules : gset str) (rows : list reader_row)
  : exc filter_state :=
  filter_rows_from bad_modules (FilterState [] ∅ 0) rows.

(** Line 72: [bad_modules - found_lesson_ids] *)
Definition missing_lesson_ids (bad_modules : gset str) (st : filter_state)
  : gset str :=
  bad_modules ∖ found_lesson_ids st.

End Summary.

(** ** A catalogue of three courses, to run the loaders on *)

Module Catalogue.

Import BadModules.

Definition course (lesson_id lesson_name link : string) : row :=
  {[ lit "link" := lit link;
     lit "lessonID" := lit lesson_id;
     lit "lessonname" := lit lesson_name;
     lit "courseid" := lit "7";
     lit "coursename" := lit "Simulation" ]}.

Definition fieldnames : list str :=
  [lit "courseid"; lit "coursename"; lit "lessonID"; lit "lessonname";
   lit "link"].

Definition rows : list row :=
  [ course "L-100" "Intake" "https://host/c100/imsmanifest.xml";
    course "L-200" "Triage" "https://host/c200/imsmanifest.xml";
    course "L-300" "Discharge" "https://host/c300/imsmanifest.xml" ].

(** The same catalogue as the lines of a CSV file. *)
Definition lines : list (list str) :=
  [ [lit "7"; lit "Simulation"; lit "L-100"; lit "Intake";
     lit "https://host/c100/imsmanifest.xml"];
    [lit "7"; lit "Simulation"; lit "L-200"; lit "Triage";
     lit "https://host/c200/imsmanifest.xml"];
    [lit "7"; lit "Simulation"; lit "L-300"; lit "Discharge";
     lit "https://host/c300/imsmanifest.xml"] ].

End Catalogue.

(** ** Statements about the rest of the code *)

Module Properties.

Import BadModules Parallel.

(** No whitespace at either end. *)
Definition trimmed (s : str) : Prop :=
  Claims.stops isspace s ∧ Claims.stops isspace (rev s).

(** What [--limit] keeps of a list: everything for [None] and for 0,
    the first [limit] elements for a positive [limit], nothing for a
    negative one. *)
Definition limited {A} (limit : option Z) (l : list A) : list A :=
  match limit with
  | None => l
  | Some z => if (z =? 0)%Z then l else take (Z.to_nat z) l
  end.

(** The row has the three columns [load_all_urls] reads. *)
Definition has_url_columns (r : row) : Prop :=
  is_Some (r !! lit "link") ∧ is_Some (r !! lit "lessonID") ∧
  is_Some (r !! lit "lessonname").

(** The row has the five columns [load_matching_urls_from_csv] reads. *)
Definition has_course_columns (r : row) : Prop :=
  has_url_columns r ∧
  is_Some (r !! lit "courseid") ∧ is_Some (r !! lit "coursename").

(** The dictionaries the two loaders build from a row. *)
Definition url_of_row (r : row) : url_data :=
  UrlData (dict_get r (lit "link") []) (dict_get r (lit "lessonID") [])
          (dict_get r (lit "lessonname") []) None None.

Definition course_of_row (r : row) : url_data :=
  UrlData (dict_get r (lit "link") []) (dict_get r (lit "lessonID") [])
          (dict_get r (lit "lessonname") [])
          (Some (dict_get r (lit "courseid") []))
          (Some (dict_get r (lit "coursename") [])).

(** The raw [lessonID] of a row is one of the bad modules. *)
Definition row_selected (bad_modules : gset str) (r : row) : Prop :=
  dict_get r (lit "lessonID") [] ∈ bad_modules.

#[global] Instance row_selected_dec bad_modules r :
  Decision (row_selected bad_modules r).
Proof. unfold row_selected. apply _. Defined.

(** The key a task carries. *)
Definition task_key (t : task) : str := t.1.1.2.

(** [r["status"] == "success"] and [r["status"] == "failed"] *)
Definition succeeded {float : Type} (r : result float) : Prop :=
  r_status float r = lit "success".

Definition failed {float : Type} (r : result float) : Prop :=
  r_status float r = lit "failed".

#[global] Instance succeeded_dec {float} (r : result float) :
  Decision (succeeded r).
Proof. unfold succeeded. apply _. Defined.

#[global] Instance failed_dec {float} (r : result float) :
  Decision (failed r).
Proof. unfold failed. apply _. Defined.

(** The record a task leads to: its identity, and its status by the
    outcome of the course processing. *)
Definition record_of {float : Type}
    (process_course_url : str → str → exc unit)
    (args : task) (r : result float) : Prop :=
  r_lesson_id float r = lesson_id args.1.1.1 ∧
  r_worker_id float r = args.1.2 ∧
  r_batch_num float r = args.2 ∧
  r_api_key float r = slice_to 20 (task_key args) ++ lit "..." ∧
  match process_course_url (task_key args) (url args.1.1.1) with
  | Ret _ => succeeded r ∧ r_error float r = None
  | Raise e => failed r ∧ r_error float r = Some (take 200 (str_of_exn e))
  end.

(** No path separator, of either kind. *)
Definition plain (s : str) : Prop := ("/"%char ∉ s) ∧ ("\"%char ∉ s).

(** The shape of a JSON file name of a course: two characters, a '/',
    and a rest without separator. *)
Definition json_ref (m : str) : Prop :=
  ∃ a b, m = a ++ "/"%char :: b ∧ length a = 2 ∧ plain a ∧ plain b.

(** [text] is the literal [p] up to case. *)
Definition same_nocase (p text : str) : Prop :=
  Forall2 (λ a c, Urls.eqb_nocase a c = true) p text.

(** What the pattern [dr/img\w*\.json] matches. *)
Definition json_pattern (m : str) : Prop :=
  ∃ head word ext,
    m = head ++ word ++ ext ∧
    same_nocase (lit "dr/img") head ∧
    Forall (λ c, Urls.isword c = true) word ∧
    same_nocase (lit ".json") ext.

(** The text [find_json_files_from_manifest] searches. *)
Definition manifest_text (xml_content : Urls.scrape_result) : str :=
  Urls.add_text (Urls.add_text [] (Urls.markdown xml_content))
                (Urls.html xml_content).

End Properties.

(** * Proofs *)

(** ** Strings *)

Section StringFacts.

Lemma startswith_app (p s : str) : startswith p (p ++ s) = true.
Proof.
  induction p as [|a p IH]; simpl; [done|].
  by rewrite Ascii.eqb_refl, IH.
Qed.

Lemma startswith_prefix (p s : str) :
  startswith p s = true ↔ ∃ t, s = p ++ t.
Proof.
  split.
  - revert s. induction p as [|a p IH]; intros s H; simpl in *.
    + by exists s.
    + destruct s as [|c s]; [done|].
      apply andb_true_iff in H as [Hc Hs].
      apply Ascii.eqb_eq in Hc as ->.
      destruct (IH _ Hs) as [t ->]. by exists t.
  - intros [t ->]. apply startswith_app.
Qed.

Lemma endswith_app (p s : str) : endswith p (s ++ p) = true.
Proof. unfold endswith. rewrite rev_app_distr. apply startswith_app. Qed.

Lemma endswith_suffix (p s : str) :
  endswith p s = true ↔ ∃ t, s = t ++ p.
Proof.
  unfold endswith. rewrite startswith_prefix. split.
  - intros [t Ht]. exists (rev t).
    rewrite <- (rev_involutive s), Ht, rev_app_distr.
    by rewrite rev_involutive.
  - intros [t ->]. exists (rev t). by rewrite rev_app_distr.
Qed.

Lemma replace_not_elem (a b : ascii) (s : str) :
  a ≠ b → a ∉ replace a b s.
Proof.
  intros Hab Hin. unfold replace in Hin.
  apply list_elem_of_fmap in Hin as (c & Hc & _).
  destruct (Ascii.eqb_spec c a); congruence.
Qed.

Lemma split_nonempty (sep : ascii) (s : str) : split sep s ≠ [].
Proof.
  destruct s as [|c s]; simpl; [done|].
  destruct (Ascii.eqb c sep); [done|]. by destruct (split sep s).
Qed.

Lemma truthy_true (s : str) : truthy s = true ↔ s ≠ [].
Proof. by destruct s. Qed.

Lemma truthy_false (s : str) : truthy s = false ↔ s = [].
Proof. by destruct s. Qed.

End StringFacts.

(** ** [extract_folder_name] *)

Section FolderName.

Import Scraper Claims.

(** The loop, started at index [length done] with [done] behind it. *)
Lemma manifest_loop_spec (parts done todo : list str) :
  parts = done ++ todo →
  match manifest_loop parts (length done) todo with
  | Some r =>
      ∃ j, length done ≤ j ∧ 0 < j ∧ parts !! j = Some manifest ∧
           (∀ k, length done ≤ k < j → 0 < k → parts !! k ≠ Some manifest) ∧
           r = parts !! (j - 1)
  | None =>
      ∀ k, length done ≤ k → 0 < k → parts !! k ≠ Some manifest
  end.
Proof.
  revert done. induction todo as [|part todo IH]; intros done Hparts; simpl.
  - intros k Hk _. rewrite Hparts, app_nil_r.
    rewrite lookup_ge_None_2; [done|lia].
  - assert (Hhere : parts !! length done = Some part).
    { rewrite Hparts. by rewrite list_lookup_middle. }
    specialize (IH (done ++ [part])).
    rewrite length_app, Nat.add_1_r in IH. simpl in IH.
    assert (Hstep : ∀ k, length done ≤ k → k = length done ∨ S (length done) ≤ k)
      by (intros; lia).
    case_bool_decide as Hpart.
    + destruct (0 <? length done) eqn:Hpos.
      * apply Nat.ltb_lt in Hpos. exists (length done).
        split_and!; [lia|lia|congruence| |done].
        intros k Hk. lia.
      * apply Nat.ltb_ge in Hpos.
        specialize (IH ltac:(by rewrite <- app_assoc)).
        destruct (manifest_loop parts (S (length done)) todo) as [r|].
        -- destruct IH as (j & Hj & Hj0 & Hm & Hmin & ->).
           exists j. split_and!; [lia|done|done| |done].
           intros k Hk Hk0. apply Hmin; lia.
        -- intros k Hk Hk0. apply IH; lia.
    + specialize (IH ltac:(by rewrite <- app_assoc)).
      destruct (manifest_loop parts (S (length done)) todo) as [r|].
      * destruct IH as (j & Hj & Hj0 & Hm & Hmin & ->).
        exists j. split_and!; [lia|done|done| |done].
        intros k Hk Hk0. destruct (Hstep k ltac:(lia)) as [->|Hlt].
        -- congruence.
        -- apply Hmin; lia.
      * intros k Hk Hk0. destruct (Hstep k Hk) as [->|Hlt].
        -- congruence.
        -- by apply IH.
Qed.

(** C9 (amended). [extract_folder_name] returns on every string.  When
    some segment other than the first is [imsmanifest.xml], the result is
    the segment before the first such occurrence; otherwise it is the
    second-to-last segment when there are two segments or more, and
    "course_content" when there are fewer. *)
Theorem extract_folder_name_total (url : str) :
  let parts := path_parts_of url in
  ∃ name, extract_folder_name url = Some name ∧
    ((∃ j, first_preceded_occurrence manifest parts j ∧
           parts !! (j - 1) = Some name)
     ∨ (¬ manifest_preceded parts ∧ 2 ≤ length parts ∧
        parts !! (length parts - 2) = Some name)
     ∨ (¬ manifest_preceded parts ∧ length parts < 2 ∧
        name = lit "course_content")).
Proof.
  intros parts. unfold extract_folder_name. fold parts.
  pose proof (manifest_loop_spec parts [] parts eq_refl) as Hloop.
  simpl in Hloop.
  destruct (manifest_loop parts 0 parts) as [r|].
  - destruct Hloop as (j & _ & Hj0 & Hm & Hmin & ->).
    destruct (lookup_lt_is_Some_2 parts (j - 1)) as [name Hname].
    { apply lookup_lt_Some in Hm. lia. }
    exists name. split; [done|]. left. exists j. split; [|done].
    split_and!; [done|done|]. intros k Hk. apply Hmin; lia.
  - assert (Hnone : ¬ manifest_preceded parts).
    { intros (i & Hi & Hm). by apply (Hloop i ltac:(lia) Hi). }
    destruct (2 <=? length parts) eqn:Hlen.
    + apply Nat.leb_le in Hlen.
      destruct (lookup_lt_is_Some_2 parts (length parts - 2)) as [name Hname];
        [lia|].
      exists name. split; [done|]. right. left. done.
    + apply Nat.leb_gt in Hlen. eexists. split; [done|].
      right. right. done.
Qed.

(** C9 (as stated) fails: the first segment is [imsmanifest.xml], so the
    first occurrence has nothing before it, and the function answers with
    the segment before the second occurrence. *)
Lemma folder_name_claim_fails :
  ¬ folder_name_claim (lit "imsmanifest.xml/a/imsmanifest.xml/b/c").
Proof.
  intros [Hfirst _].
  destruct Hfirst as (j & name & [_ Hmin] & _).
  { exists 2. split; [lia|]. vm_compute. done. }
  apply (Hmin 0); [lia|]. vm_compute. done.
Qed.

Example folder_name_after_leading_manifest :
  extract_folder_name (lit "imsmanifest.xml/a/imsmanifest.xml/b/c")
  = Some (lit "a").
Proof. vm_compute. done. Qed.

Example folder_name_manifest_url :
  extract_folder_name (lit "https://host/courses/c42/imsmanifest.xml")
  = Some (lit "c42").
Proof. vm_compute. done. Qed.

Example folder_name_fallbacks :
  extract_folder_name (lit "https://host/courses/c42/") = Some (lit "courses")
  ∧ extract_folder_name (lit "c42") = Some (lit "course_content")
  ∧ extract_folder_name [] = Some (lit "course_content").
Proof. vm_compute. done. Qed.

End FolderName.

(** ** The bad-modules list and the CSV filter *)

Section BadModulesFacts.

Import BadModules Claims.

Lemma keeps_spec (lesson_id : str) :
  keeps lesson_id = true ↔ is_lesson_id lesson_id.
Proof.
  unfold keeps, is_lesson_id.
  rewrite andb_true_iff, negb_true_iff, truthy_true. done.
Qed.

Lemma load_list_foldl (lines acc : list str) :
  foldl (λ bad_modules line,
           let lesson_id := strip line in
           if keeps lesson_id then bad_modules ++ [lesson_id]
           else bad_modules) acc lines
  = acc ++ filter is_lesson_id (strip <$> lines).
Proof.
  revert acc. induction lines as [|line lines IH]; intros acc; simpl.
  - by rewrite app_nil_r.
  - rewrite IH, filter_cons. destruct (keeps (strip line)) eqn:Hk.
    + apply keeps_spec in Hk. rewrite decide_True by done.
      by rewrite <- app_assoc.
    + rewrite decide_False; [done|].
      rewrite <- keeps_spec. congruence.
Qed.

Lemma load_set_foldl (lines : list str) (acc : gset str) :
  foldl (λ bad_modules line,
           let lesson_id := strip line in
           if keeps lesson_id then bad_modules ∪ {[lesson_id]}
           else bad_modules) acc lines
  = acc ∪ list_to_set (filter is_lesson_id (strip <$> lines)).
Proof.
  revert acc. induction lines as [|line lines IH]; intros acc; simpl.
  - by rewrite (right_id_L ∅ (∪)).
  - rewrite IH, filter_cons. destruct (keeps (strip line)) eqn:Hk.
    + apply keeps_spec in Hk. rewrite decide_True by done.
      rewrite list_to_set_cons. by rewrite (assoc_L (∪)).
    + rewrite decide_False; [done|].
      rewrite <- keeps_spec. congruence.
Qed.

Lemma load_list_exact (f : text_file) :
  load_bad_modules_list f = filter is_lesson_id (strip <$> lines_of f).
Proof. destruct f as [lines|]; [apply load_list_foldl|done]. Qed.

Lemma load_set_exact (f : text_file) :
  load_bad_modules_set f
  = list_to_set (filter is_lesson_id (strip <$> lines_of f)).
Proof.
  destruct f as [lines|]; simpl; [|done].
  by rewrite load_set_foldl, (left_id_L ∅ (∪)).
Qed.

Lemma load_set_elem (f : text_file) (lesson_id : str) :
  lesson_id ∈ load_bad_modules_set f →
  is_lesson_id lesson_id ∧ ∃ line, line ∈ lines_of f ∧ lesson_id = strip line.
Proof.
  rewrite load_set_exact, elem_of_list_to_set, list_elem_of_filter.
  intros [Hid Hin]. split; [done|].
  apply list_elem_of_fmap in Hin as (line & -> & Hline). eauto.
Qed.

(** C10. Both loaders return exactly the stripped lines that are not
    empty and do not start with '#', the list in file order and the set
    without duplicates; neither holds the empty string or a comment, and
    a missing file gives the empty collection. *)
Theorem load_bad_modules_list_exact (f : text_file) :
  let kept := filter is_lesson_id (strip <$> lines_of f) in
  load_bad_modules_list f = kept
  ∧ load_bad_modules_set f = list_to_set kept
  ∧ ([] ∉ load_bad_modules_list f)
  ∧ ([] ∉ load_bad_modules_set f)
  ∧ Forall (λ lesson_id, startswith (lit "#") lesson_id = false)
           (load_bad_modules_list f)
  ∧ set_Forall (λ lesson_id, startswith (lit "#") lesson_id = false)
               (load_bad_modules_set f)
  ∧ NoDup (elements (load_bad_modules_set f))
  ∧ load_bad_modules_list None = []
  ∧ load_bad_modules_set None = ∅.
Proof.
  intros kept. split_and!.
  - apply load_list_exact.
  - apply load_set_exact.
  - rewrite load_list_exact, list_elem_of_filter. by intros [[? _] _].
  - intros Hin. by apply load_set_elem in Hin as [[? _] _].
  - rewrite load_list_exact. apply Forall_forall. intros x.
    rewrite list_elem_of_filter. by intros [[_ ?] _].
  - intros x Hin. by apply load_set_elem in Hin as [[_ ?] _].
  - apply NoDup_elements.
  - done.
  - done.
Qed.

Example load_bad_modules_sample :
  let f := Some [lit "  L-100 "; lit ""; lit "# retry later"; lit "L-200";
                 lit "   "; lit "L-100"] in
  load_bad_modules_list f = [lit "L-100"; lit "L-200"; lit "L-100"]
  ∧ load_bad_modules_set f = {[lit "L-100"; lit "L-200"]}.
Proof.
  split; [by vm_compute|].
  rewrite load_set_exact. vm_compute filter. set_solver.
Qed.

Lemma lesson_id_of_returns (r : reader_row) :
  has_lesson_id r → lesson_id_of r = Ret (stripped_id r).
Proof.
  unfold has_lesson_id, stripped_id, lesson_id_of.
  by destruct (named r !! lit "lessonID") as [[field|]|].
Qed.

Lemma lesson_id_of_raises (r : reader_row) :
  ¬ has_lesson_id r →
  lesson_id_of r
  = Raise (Exception (lit "'NoneType' object has no attribute 'strip'")).
Proof.
  unfold has_lesson_id, lesson_id_of.
  destruct (named r !! lit "lessonID") as [[field|]|]; [|done|];
    intros Hnot; by destruct Hnot.
Qed.

Lemma row_matches_stripped (bad_modules : gset str) (r : reader_row) :
  has_lesson_id r → row_matches bad_modules r ↔ stripped_id r ∈ bad_modules.
Proof.
  intros Hr. unfold row_matches. by rewrite (lesson_id_of_returns r Hr).
Qed.

(** The loop over rows that all reach the [lessonID] column. *)
Lemma filter_rows_from_spec (bad_modules : gset str)
    (rows : list reader_row) (st : filter_state) :
  Forall has_lesson_id rows →
  ∃ st',
    filter_rows_from bad_modules st rows = Ret st' ∧
    matching_rows st'
    = matching_rows st ++ filter (row_matches bad_modules) rows ∧
    total_rows st' = total_rows st + length rows ∧
    found_lesson_ids st'
    = found_lesson_ids st
      ∪ list_to_set (stripped_id <$> filter (row_matches bad_modules) rows).
Proof.
  intros Hrows. revert st.
  induction Hrows as [|r rows Hr _ IH]; intros st.
  - exists st. split_and!; [done|by rewrite app_nil_r|simpl; lia|].
    simpl. by rewrite (right_id_L ∅ (∪)).
  - cbn [filter_rows_from]. unfold filter_row.
    rewrite (lesson_id_of_returns r Hr). cbn [mbind exc_bind Exc.bind].
    rewrite filter_cons.
    destruct (decide (row_matches bad_modules r)) as [Hm|Hm].
    + rewrite decide_True by (by apply row_matches_stripped).
      cbn [mbind exc_bind Exc.bind].
      destruct (IH (FilterState (matching_rows st ++ [r])
                      (found_lesson_ids st ∪ {[stripped_id r]})
                      (S (total_rows st))))
        as (st' & -> & Hmatch & Htotal & Hfound).
      exists st'. cbn [matching_rows total_rows found_lesson_ids] in *.
      split_and!; [done| | |].
      * by rewrite Hmatch, <- app_assoc.
      * rewrite Htotal. simpl. lia.
      * rewrite Hfound, fmap_cons. cbn [list_to_set foldr].
        by rewrite (assoc_L (∪)).
    + rewrite decide_False by (by rewrite <- row_matches_stripped).
      cbn [mbind exc_bind Exc.bind].
      destruct (IH (FilterState (matching_rows st) (found_lesson_ids st)
                      (S (total_rows st))))
        as (st' & -> & Hmatch & Htotal & Hfound).
      exists st'. cbn [matching_rows total_rows found_lesson_ids] in *.
      split_and!; [done|done| |done].
      rewrite Htotal. simpl. lia.
Qed.

(** The loop raises at the first row that does not reach the column. *)
Lemma filter_rows_from_raises (bad_modules : gset str)
    (rows : list reader_row) (st : filter_state) :
  Exists (λ r, ¬ has_lesson_id r) rows →
  filter_rows_from bad_modules st rows
  = Raise (Exception (lit "'NoneType' object has no attribute 'strip'")).
Proof.
  revert st. induction rows as [|r rows IH]; intros st Hex.
  - by apply Exists_nil in Hex.
  - cbn [filter_rows_from]. unfold filter_row.
    destruct (decide (has_lesson_id r)) as [Hr|Hr].
    + apply Exists_cons in Hex as [?|Hex]; [done|].
      rewrite (lesson_id_of_returns r Hr). cbn [mbind exc_bind Exc.bind].
      case_decide; cbn [mbind exc_bind Exc.bind]; by apply IH.
    + by rewrite (lesson_id_of_raises r Hr).
Qed.

Lemma write_rows_fit (fieldnames : list str) (rows : list reader_row) :
  Forall (λ r, restkey r = None) rows →
  write_rows fieldnames rows = (line_of fieldnames <$> rows, None).
Proof.
  induction 1 as [|r rows Hr _ IH]; [done|].
  cbn [write_rows]. unfold writerow. rewrite Hr, IH. done.
Qed.

Lemma no_row_matches_empty (rows : list reader_row) :
  filter (row_matches ∅) rows = [].
Proof.
  induction rows as [|r rows IH]; [done|].
  rewrite filter_cons, decide_False; [done|].
  unfold row_matches. destruct (lesson_id_of r); [|by intros []].
  apply not_elem_of_empty.
Qed.

(** A run over rows that reach the [lessonID] column and whose matching
    rows fit the header. *)
Lemma extract_lines (bad_modules_txt : text_file) (main_csv : csv_lines) :
  let bad_modules := load_bad_modules_set bad_modules_txt in
  let selected := filter (row_matches bad_modules) (rows_read main_csv) in
  Forall has_lesson_id (rows_read main_csv) →
  Forall (fits_header bad_modules) (rows_read main_csv) →
  extract_bad_modules_csv bad_modules_txt main_csv
  = match selected with
    | [] => FilterRun None None
    | _ :: _ =>
        FilterRun (Some (header_of main_csv
                         :: (line_of (header_of main_csv) <$> selected)))
                  None
    end.
Proof.
  intros bad_modules selected Hids Hfit.
  unfold extract_bad_modules_csv. fold bad_modules.
  case_decide as Hempty.
  { unfold selected. rewrite Hempty. by rewrite no_row_matches_empty. }
  destruct main_csv as [[|fieldnames lines]|]; [done| |done].
  cbn [rows_read header_of] in *.
  destruct (filter_rows_from_spec bad_modules
              (dict_reader_rows fieldnames lines) (FilterState [] ∅ 0) Hids)
    as (st & -> & Hmatch & _ & _).
  cbn [matching_rows app] in Hmatch. rewrite Hmatch. fold selected.
  destruct selected as [|r rest] eqn:Hsel; [done|].
  rewrite write_rows_fit; [done|].
  rewrite <- Hsel. apply Forall_forall. intros r' Hr'.
  unfold selected in Hr'. apply list_elem_of_filter in Hr' as [Hm Hin].
  eapply Forall_forall in Hfit; [|exact Hin]. by apply Hfit.
Qed.

(** C2, as amended. When every row of the main CSV reaches the
    [lessonID] column and no matching row has more fields than the
    header, the filter ends without an exception and the lines it writes
    are exactly those of the rows whose stripped [lessonID] is in the
    loaded set, in the order of the main CSV: no other row is written and
    no matching row is dropped, and the written file keeps the header. *)
Theorem extract_bad_modules_csv_exact (bad_modules_txt : text_file)
    (main_csv : csv_lines) :
  let bad_modules := load_bad_modules_set bad_modules_txt in
  let rows := rows_read main_csv in
  let run := extract_bad_modules_csv bad_modules_txt main_csv in
  Forall has_lesson_id rows →
  Forall (fits_header bad_modules) rows →
  raised run = None
  ∧ lines_written run
    = line_of (header_of main_csv) <$> filter (row_matches bad_modules) rows
  ∧ sublist (filter (row_matches bad_modules) rows) rows
  ∧ (∀ r, r ∈ filter (row_matches bad_modules) rows ↔
          r ∈ rows ∧ row_matches bad_modules r)
  ∧ match output run with
    | Some lines =>
        head lines = Some (header_of main_csv) ∧
        filter (row_matches bad_modules) rows ≠ []
    | None => filter (row_matches bad_modules) rows = []
    end.
Proof.
  intros bad_modules rows run Hids Hfit.
  unfold run. rewrite (extract_lines bad_modules_txt main_csv Hids Hfit).
  fold bad_modules rows.
  split_and!.
  - by destruct (filter (row_matches bad_modules) rows).
  - by destruct (filter (row_matches bad_modules) rows).
  - apply sublist_filter.
  - intros r. rewrite list_elem_of_filter. tauto.
  - by destruct (filter (row_matches bad_modules) rows).
Qed.

End BadModulesFacts.

(** ** The parallel scrapers *)

Section ParallelFacts.

Import Parallel Claims.

Context {float : Type}.
Context (process_course_url : str → str → exc unit).
Context (time_spent : str → str → float).

#[local] Abbreviation scrape :=
  (scrape_single_course float process_course_url time_spent).
#[local] Abbreviation scrape_bad :=
  (scrape_single_course_bad float process_course_url time_spent).

Lemma scrape_total : total_worker scrape.
Proof.
  intros [[[url_data api_key] worker_id] batch_num].
  unfold scrape_single_course.
  destruct (process_course_url api_key (url url_data)) as [[]|e] eqn:Hcall;
    simpl; eauto.
Qed.

Lemma scrape_bad_total : total_worker scrape_bad.
Proof.
  intros [[[url_data api_key] worker_id] batch_num].
  unfold scrape_single_course_bad.
  destruct (process_course_url api_key (url url_data)) as [[]|e] eqn:Hcall;
    simpl; eauto.
Qed.

(** [executor.map] over workers that never raise: one record per task,
    in task order. *)
Lemma map_exc_total {A B} (f : A → exc B) (l : list A) :
  (∀ a, ∃ b, f a = Ret b) →
  ∃ bs, map_exc f l = Ret bs ∧ Forall2 (λ a b, f a = Ret b) l bs.
Proof.
  intros Hf. induction l as [|a l (bs & Hbs & Hall)]; simpl.
  - exists []. by split.
  - destruct (Hf a) as [b Hb]. exists (b :: bs).
    rewrite Hb. simpl. rewrite Hbs. simpl. split; [done|].
    by constructor.
Qed.

Lemma executor_map_total (max_workers : nat)
    (worker : task → exc (result float)) (tasks : list task) :
  0 < max_workers → total_worker worker →
  ∃ results, executor_map float max_workers worker tasks = Ret results ∧
             Forall2 (λ args r, worker args = Ret r) tasks results.
Proof.
  intros Hpos Hworker. unfold executor_map.
  destruct (Nat.eqb_spec max_workers 0) as [->|_]; [lia|].
  by apply map_exc_total.
Qed.

Lemma slice_to_length (n : nat) (s : str) : length (slice_to n s) ≤ n.
Proof. unfold slice_to. rewrite length_take. lia. Qed.

(** C4. [scrape_single_course] (both scripts) returns a record on every
    task.  When the course processing raises, the record has status
    "failed" and its error is the first 200 characters of the message;
    when it returns, the status is "success" and there is no error
    field.  In a batch every task gets its own record, whatever the
    other tasks did. *)
Theorem scrape_single_course_catches :
  (∀ url_data api_key worker_id batch_num,
     ∃ r rb,
       scrape (url_data, api_key, worker_id, batch_num) = Ret r ∧
       scrape_bad (url_data, api_key, worker_id, batch_num) = Ret rb ∧
       r_lesson_id float r = lesson_id url_data ∧
       r_worker_id float r = worker_id ∧
       r_lesson_id float rb = lesson_id url_data ∧
       r_worker_id float rb = worker_id ∧
       match process_course_url api_key (url url_data) with
       | Ret _ =>
           r_status float r = lit "success" ∧ r_error float r = None ∧
           r_status float rb = lit "success" ∧ r_error float rb = None
       | Raise e =>
           r_status float r = lit "failed" ∧
           r_status float rb = lit "failed" ∧
           ∃ error_msg,
             r_error float r = Some error_msg ∧
             r_error float rb = Some error_msg ∧
             error_msg = take 200 (str_of_exn e) ∧
             length error_msg ≤ 200
       end)
  ∧ (∀ tasks max_workers, 0 < max_workers →
       ∃ results results_bad,
         executor_map float max_workers scrape tasks = Ret results ∧
         executor_map float max_workers scrape_bad tasks = Ret results_bad ∧
         Forall2 (λ args r, scrape args = Ret r) tasks results ∧
         Forall2 (λ args r, scrape_bad args = Ret r) tasks results_bad).
Proof.
  split.
  - intros url_data api_key worker_id batch_num.
    unfold scrape_single_course, scrape_single_course_bad.
    destruct (process_course_url api_key (url url_data)) as [[]|e]; simpl.
    + do 2 eexists. split_and!; done.
    + do 2 eexists. split_and!; try done.
      exists (slice_to 200 (str_of_exn e)).
      split_and!; try done. apply slice_to_length.
  - intros tasks max_workers Hpos.
    destruct (executor_map_total max_workers scrape tasks Hpos scrape_total)
      as (results & Hres & Hall).
    destruct (executor_map_total max_workers scrape_bad tasks Hpos
                scrape_bad_total) as (results_bad & Hres_bad & Hall_bad).
    by exists results, results_bad.
Qed.

(** *** Key assignment *)

Lemma batch_tasks_from_spec (i : nat) (batch_urls : list url_data)
    (api_keys : list str) (batch_num : nat) :
  0 < length api_keys →
  ∃ tasks,
    batch_tasks_from i batch_urls api_keys batch_num = Ret tasks ∧
    length tasks = length batch_urls ∧
    ∀ n url_data, batch_urls !! n = Some url_data →
      ∃ api_key,
        api_keys !! ((i + n) mod length api_keys) = Some api_key ∧
        tasks !! n = Some (url_data, api_key, i + n + 1, batch_num).
Proof.
  intros HK. revert i.
  induction batch_urls as [|url_data rest IH]; intros i; simpl.
  - exists []. split_and!; [done|done|]. intros n ud Hn. done.
  - unfold py_mod. destruct (Nat.eqb_spec (length api_keys) 0) as [?|_]; [lia|].
    simpl. unfold py_index.
    destruct (lookup_lt_is_Some_2 api_keys (i mod length api_keys))
      as [api_key Hkey]; [apply Nat.mod_upper_bound; lia|].
    rewrite Hkey. simpl.
    destruct (IH (S i)) as (tasks & -> & Hlen & Hnth). simpl.
    eexists. split_and!; [done|by simpl; rewrite Hlen|].
    intros [|n] ud Hn; simpl in *.
    + injection Hn as <-. exists api_key.
      by rewrite Nat.add_0_r.
    + destruct (Hnth n ud Hn) as (key & Hk & Ht).
      exists key. replace (i + S n) with (S i + n) by lia. done.
Qed.

Lemma batch_urls_of_length (urls : list url_data) (K batch_num : nat) :
  length (batch_urls_of urls K batch_num)
  = min ((batch_num - 1) * K + K) (length urls) - (batch_num - 1) * K.
Proof.
  unfold batch_urls_of, py_slice. rewrite length_take, length_drop. lia.
Qed.

Lemma batch_urls_of_lookup (urls : list url_data) (K batch_num n : nat) :
  n < K →
  batch_urls_of urls K batch_num !! n = urls !! ((batch_num - 1) * K + n).
Proof.
  intros Hn. unfold batch_urls_of, py_slice.
  destruct (decide ((batch_num - 1) * K + n < length urls)) as [Hin|Hout].
  - rewrite lookup_take_lt by lia. by rewrite lookup_drop.
  - rewrite (lookup_ge_None_2 urls) by lia.
    apply lookup_ge_None_2. rewrite length_take, length_drop. lia.
Qed.

Lemma process_batch_spec (worker : task → exc (result float))
    (urls : list url_data) (api_keys : list str) (batch_num : nat) :
  total_worker worker →
  0 < length api_keys →
  (batch_num - 1) * length api_keys < length urls →
  ∃ run,
    process_batch float worker
      (batch_urls_of urls (length api_keys) batch_num) api_keys batch_num
    = Ret run ∧
    batch_run_ok worker urls api_keys batch_num run.
Proof.
  intros Hworker HK Hstart. unfold process_batch, batch_tasks.
  destruct (batch_tasks_from_spec 0
              (batch_urls_of urls (length api_keys) batch_num)
              api_keys batch_num HK) as (tasks & Htasks & Hlen & _).
  rewrite Htasks. simpl.
  destruct (executor_map_total
              (min (length (batch_urls_of urls (length api_keys) batch_num))
                   (length api_keys)) worker tasks) as (results & -> & Hall).
  { rewrite batch_urls_of_length. lia. }
  { done. }
  simpl. eexists. split; [done|]. by split_and!.
Qed.

Lemma batch_loop_spec (worker : task → exc (result float))
    (urls : list url_data) (api_keys : list str) (batch_nums : list nat) :
  total_worker worker →
  0 < length api_keys →
  Forall (λ batch_num, (batch_num - 1) * length api_keys < length urls)
         batch_nums →
  ∃ runs,
    batch_loop float worker urls api_keys (length api_keys) batch_nums
    = Ret runs ∧
    Forall2 (batch_run_ok worker urls api_keys) batch_nums runs.
Proof.
  intros Hworker HK Hnums.
  induction Hnums as [|batch_num later Hstart _ (runs & Hruns & Hall)]; simpl.
  - exists []. by split.
  - destruct (process_batch_spec worker urls api_keys batch_num
                Hworker HK Hstart) as (run & -> & Hrun).
    simpl. rewrite Hruns. simpl. exists (run :: runs).
    split; [done|]. by constructor.
Qed.

(** Ceiling division covers every URL, and every batch starts inside
    the list. *)
Lemma total_batches_cover (n K : nat) :
  0 < K → n ≤ (n + K - 1) `div` K * K.
Proof.
  intros HK. pose proof (Nat.div_mod_eq (n + K - 1) K) as Hdm.
  pose proof (Nat.mod_upper_bound (n + K - 1) K ltac:(lia)). nia.
Qed.

Lemma total_batches_start (n K batch_num : nat) :
  0 < K → batch_num ≤ (n + K - 1) `div` K → 1 ≤ batch_num →
  (batch_num - 1) * K < n.
Proof.
  intros HK Hle Hge. pose proof (Nat.div_mod_eq (n + K - 1) K) as Hdm.
  pose proof (Nat.mod_upper_bound (n + K - 1) K ltac:(lia)). nia.
Qed.

Lemma main_batches_spec (worker : task → exc (result float))
    (urls : list url_data) (api_keys : list str) :
  total_worker worker →
  0 < length api_keys →
  ∃ runs,
    main_batches float worker urls api_keys = Ret runs ∧
    Forall2 (batch_run_ok worker urls api_keys)
      (seq 1 ((length urls + length api_keys - 1) `div` length api_keys))
      runs.
Proof.
  intros Hworker HK. unfold main_batches, py_floordiv.
  destruct (Nat.eqb_spec (length api_keys) 0) as [?|_]; [lia|]. simpl.
  apply batch_loop_spec; [done|done|].
  apply Forall_forall. intros batch_num Hin.
  apply elem_of_seq in Hin. apply total_batches_start; lia.
Qed.

Lemma all_tasks_cons (run : batch_run float) (runs : list (batch_run float)) :
  all_tasks float (run :: runs) = run_tasks float run ++ all_tasks float runs.
Proof. done. Qed.

(** The tasks of the batches numbered [b0 + 1], [b0 + 2], ... laid end to
    end: position [t] holds the task of URL [b0 * K + t]. *)
Lemma all_tasks_lookup (worker : task → exc (result float))
    (urls : list url_data) (api_keys : list str) (m b0 : nat)
    (runs : list (batch_run float)) :
  0 < length api_keys →
  Forall2 (batch_run_ok worker urls api_keys) (seq (S b0) m) runs →
  length urls ≤ (b0 + m) * length api_keys →
  ∀ t url_data,
    urls !! (b0 * length api_keys + t) = Some url_data →
    ∃ api_key,
      api_keys !! (t mod length api_keys) = Some api_key ∧
      all_tasks float runs !! t
      = Some (url_data, api_key, t mod length api_keys + 1,
              b0 + t `div` length api_keys + 1).
Proof.
  set (K := length api_keys). intros HK.
  revert b0 runs. induction m as [|m IH]; intros b0 runs Hruns Hcover t ud Hud.
  - apply lookup_lt_Some in Hud. lia.
  - simpl in Hruns. apply Forall2_cons_inv_l in Hruns
      as (run & runs' & (Htasks & _ & _) & Hruns' & ->).
    rewrite all_tasks_cons.
    destruct (batch_tasks_from_spec 0 (batch_urls_of urls K (S b0))
                api_keys (S b0) HK) as (tasks & Htasks' & Hlen & Hnth).
    unfold batch_tasks in Htasks. fold K in Htasks. rewrite Htasks' in Htasks.
    injection Htasks as <-.
    rewrite batch_urls_of_length in Hlen.
    replace (S b0 - 1) with b0 in Hlen by lia.
    pose proof (lookup_lt_Some _ _ _ Hud) as Hlt.
    destruct (decide (t < K)) as [Hsmall|Hlarge].
    + destruct (Hnth t ud) as (api_key & Hkey & Htask).
      { rewrite batch_urls_of_lookup by done.
        by replace (S b0 - 1) with b0 by lia. }
      simpl in Hkey, Htask. exists api_key.
      rewrite Nat.mod_small by done. rewrite Nat.div_small by done.
      rewrite Nat.mod_small in Hkey by done. split; [done|].
      rewrite lookup_app_l by lia. rewrite Htask.
      do 2 f_equal; lia.
    + destruct (IH (S b0) runs' Hruns' ltac:(lia) (t - K) ud)
        as (api_key & Hkey & Htask).
      { rewrite <- Hud. f_equal. lia. }
      assert (Hmod : t mod K = (t - K) mod K).
      { replace t with ((t - K) + 1 * K) at 1 by lia.
        apply Nat.Div0.mod_add. }
      assert (Hdiv : t `div` K = S ((t - K) `div` K)).
      { replace t with ((t - K) + 1 * K) at 1 by lia.
        rewrite Nat.div_add by lia. lia. }
      exists api_key. rewrite Hmod. split; [done|].
      rewrite lookup_app_r by lia.
      replace (t - length tasks) with (t - K) by lia.
      rewrite Htask, Hdiv. do 2 f_equal; lia.
Qed.

Lemma all_tasks_length (worker : task → exc (result float))
    (urls : list url_data) (api_keys : list str) (m b0 : nat)
    (runs : list (batch_run float)) :
  0 < length api_keys →
  Forall2 (batch_run_ok worker urls api_keys) (seq (S b0) m) runs →
  length (all_tasks float runs)
  = min (length urls) ((b0 + m) * length api_keys) - b0 * length api_keys.
Proof.
  set (K := length api_keys). intros HK.
  revert b0 runs. induction m as [|m IH]; intros b0 runs Hruns.
  - apply Forall2_nil_inv_l in Hruns as ->. simpl. lia.
  - simpl in Hruns. apply Forall2_cons_inv_l in Hruns
      as (run & runs' & (Htasks & _ & _) & Hruns' & ->).
    rewrite all_tasks_cons.
    rewrite length_app, (IH (S b0) runs' Hruns').
    destruct (batch_tasks_from_spec 0 (batch_urls_of urls K (S b0))
                api_keys (S b0) HK) as (tasks & Htasks' & Hlen & _).
    unfold batch_tasks in Htasks. fold K in Htasks. rewrite Htasks' in Htasks.
    injection Htasks as <-.
    rewrite Hlen, batch_urls_of_length.
    replace (S b0 - 1) with b0 by lia.
    replace ((S b0 + m) * K) with (b0 * K + K + m * K) by lia.
    replace ((b0 + S m) * K) with (b0 * K + K + m * K) by lia.
    replace (S b0 * K) with (b0 * K + K) by lia. lia.
Qed.

(** C3. With [K > 0] keys the run returns, it creates one task per URL,
    and the task with overall index [t] carries the URL [urls[t]] and the
    key [keys[t mod K]]; the key chosen inside batch [b] at batch-local
    index [i] is [keys[i mod K]], and this is the key of the overall index
    [b * K + i]. *)
Theorem round_robin_key_assignment (urls : list url_data)
    (api_keys : list str) :
  0 < length api_keys →
  let K := length api_keys in
  ∃ runs,
    main_batches float scrape urls api_keys = Ret runs ∧
    length (all_tasks float runs) = length urls ∧
    (∀ t url_data, urls !! t = Some url_data →
       ∃ api_key,
         api_keys !! (t mod K) = Some api_key ∧
         all_tasks float runs !! t
         = Some (url_data, api_key, t mod K + 1, t `div` K + 1)) ∧
    (∀ b run i url_data api_key worker_id batch_num,
       runs !! b = Some run →
       run_tasks float run !! i
       = Some (url_data, api_key, worker_id, batch_num) →
       api_keys !! (i mod K) = Some api_key ∧
       i mod K = (b * K + i) mod K ∧
       api_keys !! ((b * K + i) mod K) = Some api_key ∧
       all_tasks float runs !! (b * K + i)
       = Some (url_data, api_key, worker_id, batch_num)).
Proof.
  intros HK K.
  destruct (main_batches_spec scrape urls api_keys scrape_total HK)
    as (runs & Hmain & Hruns). fold K in Hruns.
  pose proof (total_batches_cover (length urls) K HK) as Hcover.
  assert (Hglobal : ∀ t url_data, urls !! t = Some url_data →
            ∃ api_key, api_keys !! (t mod K) = Some api_key ∧
              all_tasks float runs !! t
              = Some (url_data, api_key, t mod K + 1, t `div` K + 1)).
  { intros t ud Hud.
    destruct (all_tasks_lookup scrape urls api_keys _ 0 runs HK Hruns
                ltac:(simpl; fold K; lia) t ud Hud) as (key & Hkey & Htask).
    exists key. by split. }
  exists runs. split_and!; [done| |done|].
  - rewrite (all_tasks_length scrape urls api_keys _ 0 runs HK Hruns).
    fold K. simpl. lia.
  - intros b run i ud key wid bn Hrun Htask.
    destruct (Forall2_lookup_r _ _ _ _ _ Hruns Hrun)
      as (bn' & Hbn' & (Htasks & _ & _)).
    apply lookup_seq in Hbn' as [-> Hb]. fold K in Htasks.
    destruct (batch_tasks_from_spec 0 (batch_urls_of urls K (1 + b))
                api_keys (1 + b) HK) as (tasks & Htasks' & Hlen & Hnth).
    unfold batch_tasks in Htasks. rewrite Htasks' in Htasks.
    injection Htasks as Heq. subst tasks.
    pose proof (lookup_lt_Some _ _ _ Htask) as Hi.
    rewrite Hlen, batch_urls_of_length in Hi.
    replace (1 + b - 1) with b in Hi by lia.
    assert (HiK : i < K) by lia.
    destruct (lookup_lt_is_Some_2 (batch_urls_of urls K (1 + b)) i)
      as [ud' Hud']; [rewrite batch_urls_of_length; lia|].
    destruct (Hnth i ud' Hud') as (key' & Hkey' & Htask').
    simpl in Hkey', Htask'. fold K in Hkey'.
    rewrite Htask in Htask'. injection Htask' as -> -> -> ->.
    assert (Hmod : (b * K + i) mod K = i mod K).
    { rewrite Nat.add_comm. apply Nat.Div0.mod_add. }
    rewrite Hmod. split_and!; [done|done|done|].
    rewrite batch_urls_of_lookup in Hud' by done.
    replace (1 + b - 1) with b in Hud' by lia.
    destruct (Hglobal _ _ Hud') as (key & Hkey & Hall).
    rewrite Hall. rewrite Hmod in Hkey |- *.
    rewrite Hkey' in Hkey. injection Hkey as <-.
    rewrite Nat.mod_small by done.
    replace ((b * K + i) `div` K) with b; [repeat f_equal; lia|].
    symmetry. rewrite Nat.add_comm, Nat.div_add by lia.
    rewrite Nat.div_small by done. done.
Qed.


End ParallelFacts.

(** ** The image extractor *)

Section PatternFacts.

Import Images Claims.


Lemma take_drop_while (p : ascii → bool) (s : str) :
  take_while p s ++ drop_while p s = s.
Proof.
  induction s as [|c s IH]; simpl; [done|].
  destruct (p c); simpl; [by rewrite IH|done].
Qed.

Lemma take_while_Forall (p : ascii → bool) (s : str) :
  Forall (λ c, p c = true) (take_while p s).
Proof.
  induction s as [|c s IH]; simpl; [constructor|].
  destruct (p c) eqn:Hc; by constructor.
Qed.

















Example search_sample :
  search (lit "var a = 1; cp.imagesJSONCache12 = {x:{y}};z}; more};")
  = Some (lit "{x:{y}}")
  ∧ search (lit "cp.imagesJSONCache = {};") = None
  ∧ search (lit "cp.imagesJSONCache7 = {}") = None.
Proof. vm_compute. done. Qed.

End PatternFacts.

Section ExtractFacts.

Import Images Claims.

Context (json_loads : str → loaded).
Context (b64decode : str → option (list byte)).
Context (open_wb : str → exc unit).

#[local] Abbreviation extract :=
  (extract_images_from_json json_loads b64decode open_wb).
#[local] Abbreviation entry_step := (process_entry b64decode open_wb).
#[local] Abbreviation entries := (process_entries b64decode open_wb).
#[local] Abbreviation written := (entry_write b64decode open_wb).

Lemma state_eta (st : state) : State (fs st) (extracted_count st) = st.
Proof. by destruct st. Qed.

(** One iteration is the write of the entry, when it has one. *)
Lemma process_entry_write (output_dir : str) (st : state)
    (entry : str * json) :
  entry_step output_dir st entry
  = match written output_dir entry with
    | Some w => State (write_file (fs st) w) (S (extracted_count st))
    | None => st
    end.
Proof.
  destruct entry as [filename base64_data].
  unfold process_entry, entry_body, entry_write, b64decode_call, opens.
  simpl.
  destruct (truthy (strip filename)) eqn:Hname; simpl.
  2:{ apply truthy_false in Hname.
      destruct base64_data as [| | |payload| |]; try done.
      destruct (b64decode payload); [|done].
      rewrite decide_False; [done|]. intros (? & _). done. }
  apply truthy_true in Hname.
  case_bool_decide as Hsentinel; simpl.
  { destruct base64_data as [| | |payload| |]; try done.
    destruct (b64decode payload); [|done].
    rewrite decide_False; [done|]. intros (_ & ? & _). done. }
  destruct base64_data as [| | |payload| |]; try done.
  destruct (truthy (strip payload)) eqn:Hpayload; simpl.
  2:{ apply truthy_false in Hpayload.
      destruct (b64decode payload); [|done].
      rewrite decide_False; [done|]. intros (_ & _ & ? & _). done. }
  apply truthy_true in Hpayload.
  destruct (b64decode payload) as [image_data|]; simpl; [|done].
  destruct (Nat.ltb_spec 100 (length image_data)) as [Hbig|Hsmall].
  - rewrite decide_True by done.
    by destruct (open_wb (os_path_join output_dir (clean_filename filename))).
  - rewrite decide_False; [done|]. intros (_ & _ & _ & ?). lia.
Qed.

Lemma entry_write_accepted (output_dir : str) (entry : str * json)
    (path : str) (image_data : list byte) :
  written output_dir entry = Some (path, image_data) ↔
  accepted b64decode entry image_data ∧
  opens open_wb output_dir entry = true ∧
  path = os_path_join output_dir (clean_filename entry.1).
Proof.
  unfold entry_write, accepted. destruct entry as [filename base64_data].
  simpl. split.
  - destruct base64_data as [| | |payload| |]; try done.
    destruct (b64decode payload) as [d|] eqn:Hd; [|done].
    case_decide as Hok; [|done].
    destruct (opens open_wb output_dir (filename, JString payload))
      eqn:Hopen; [|done].
    intros [= <- <-].
    destruct Hok as (? & ? & ? & ?). split_and!; try done.
    by exists payload.
  - intros [(Hname & Hsent & payload & -> & Hpay & -> & Hbig) [-> ->]].
    by rewrite decide_True.
Qed.

Lemma process_entries_writes (output_dir : str)
    (images_data : list (str * json)) (st : state) :
  entries output_dir images_data st
  = State (foldl write_file (fs st) (omap (written output_dir) images_data))
          (extracted_count st
           + length (omap (written output_dir) images_data)).
Proof.
  unfold process_entries. revert st.
  induction images_data as [|entry images_data IH]; intros st.
  - simpl. rewrite Nat.add_0_r. by rewrite state_eta.
  - cbn [foldl]. rewrite IH, process_entry_write.
    change (omap (written output_dir) (entry :: images_data))
      with (match written output_dir entry with
            | Some w => w :: omap (written output_dir) images_data
            | None => omap (written output_dir) images_data
            end).
    destruct (written output_dir entry) as [w|]; [|done].
    cbn [foldl length fs extracted_count]. f_equal. lia.
Qed.


(** Replaying a list of writes: a path that is written ends with the
    content of its last write, any other path keeps what it had. *)
Lemma lookup_writes_other (writes : list (str * list byte)) (tree : files)
    (path : str) :
  path ∉ writes.*1 → foldl write_file tree writes !! path = tree !! path.
Proof.
  revert tree. induction writes as [|[p d] writes IH]; intros tree Hnot;
    simpl; [done|].
  rewrite fmap_cons in Hnot. apply not_elem_of_cons in Hnot as [Hne Hnot].
  rewrite IH by done. unfold write_file. simpl in *.
  by rewrite lookup_insert_ne.
Qed.




Lemma clean_filename_no_separator (filename : str) :
  "/"%char ∉ clean_filename filename.
Proof.
  unfold clean_filename.
  destruct (endswith (lit ".png") (replace "/" "_" filename)); simpl.
  - by apply replace_not_elem.
  - intros [Hin|Hin]%elem_of_app.
    + by apply replace_not_elem in Hin.
    + apply list_elem_of_In in Hin. simpl in Hin. intuition congruence.
Qed.

Lemma clean_filename_png (filename : str) :
  endswith (lit ".png") (clean_filename filename) = true.
Proof.
  unfold clean_filename.
  destruct (endswith (lit ".png") (replace "/" "_" filename)) eqn:Hpng;
    simpl; [done|apply endswith_app].
Qed.

Lemma join_clean_filename (output_dir filename : str) :
  ∃ sep, (sep = [] ∨ sep = lit "/") ∧
         os_path_join output_dir (clean_filename filename)
         = output_dir ++ sep ++ clean_filename filename.
Proof.
  pose proof (clean_filename_no_separator filename) as Hsep.
  unfold os_path_join.
  destruct (clean_filename filename) as [|c name] eqn:Hname.
  - change (startswith (lit "/") []) with false. cbv iota.
    destruct (negb (truthy output_dir) || endswith (lit "/") output_dir).
    + exists []. split; [by left|done].
    + exists (lit "/"). split; [by right|done].
  - assert (Hc : startswith (lit "/") (c :: name) = false).
    { change (startswith (lit "/") (c :: name))
        with (Ascii.eqb "/" c && true).
      destruct (Ascii.eqb_spec "/" c) as [<-|]; [|done].
      destruct Hsep. by left. }
    rewrite Hc.
    destruct (negb (truthy output_dir) || endswith (lit "/") output_dir).
    + exists []. split; [by left|done].
    + exists (lit "/"). split; [by right|done].
Qed.

(** C5. The stored name is the key with every '/' replaced by '_', with
    ".png" appended unless it already ends so; it holds no '/' and ends
    in ".png".  Every file the extractor writes carries the stored name of
    one of the entries, directly under the output directory. *)
Theorem clean_filename_sanitized (output_dir : str) :
  (∀ filename,
     let clean := replace "/" "_" filename in
     clean_filename filename
     = (if endswith (lit ".png") clean then clean else clean ++ lit ".png")
     ∧ ("/"%char ∉ clean_filename filename)
     ∧ endswith (lit ".png") (clean_filename filename) = true)
  ∧ (∀ entry path image_data,
       written output_dir entry = Some (path, image_data) →
       ∃ sep, (sep = [] ∨ sep = lit "/") ∧
              path = output_dir ++ sep ++ clean_filename entry.1)
  ∧ (∀ images_data st path,
       fs (entries output_dir images_data st) !! path ≠ fs st !! path →
       ∃ entry, entry ∈ images_data ∧
                path = os_path_join output_dir (clean_filename entry.1)).
Proof.
  split_and!.
  - intros filename clean. split_and!.
    + unfold clean_filename. fold clean.
      by destruct (endswith (lit ".png") clean).
    + apply clean_filename_no_separator.
    + apply clean_filename_png.
  - intros entry path image_data Hw.
    apply entry_write_accepted in Hw as (_ & _ & ->).
    apply join_clean_filename.
  - intros images_data st path Hchanged.
    rewrite process_entries_writes in Hchanged. simpl in Hchanged.
    destruct (decide (path ∈ (omap (written output_dir) images_data).*1))
      as [Hin|Hnot].
    + apply list_elem_of_fmap in Hin as ([p d] & -> & Hw).
      apply list_elem_of_omap in Hw as (entry & Hentry & Hw).
      apply entry_write_accepted in Hw as (_ & _ & ->). by exists entry.
    + by rewrite lookup_writes_other in Hchanged.
Qed.




End ExtractFacts.

(** ** The theorems at sample inputs *)

Section Witnesses.

Import Images Parallel Claims.

(** The decoder on well-formed, padded, spaced and truncated input. *)
Example b64decode_sample :
  Base64.b64decode (lit "QUJD") = Some [x41; x42; x43]%byte
  ∧ Base64.b64decode (lit "QUI=") = Some [x41; x42]%byte
  ∧ Base64.b64decode (lit "Q U J D") = Some [x41; x42; x43]%byte
  ∧ Base64.b64decode (lit "A") = None
  ∧ Base64.b64decode (lit "QUJ") = None
  ∧ Base64.b64decode Samples.payload_102 = Some (repeat x00%byte 102).
Proof. vm_compute. done. Qed.

(** The sample map: two entries are written to the same path, the later
    one wins, and the five others are passed over. *)
Example extract_sample :
  let run := extract_images_from_json Samples.json_loads Base64.b64decode
               Samples.open_wb (Some Samples.cache_text) (lit "out") ∅ in
  run.2 = Ret 2
  ∧ run.1 !! lit "out/img_a.png" = Some (repeat x00%byte 105)
  ∧ run.1 !! lit "out/b.png" = None
  ∧ run.1 !! lit "out/c.png" = None.
Proof. vm_compute. done. Qed.

(** The filter keeps the first and the third lesson, in that order; the
    blank line and the short line do no harm. *)
Example extract_bad_modules_csv_sample :
  BadModules.extract_bad_modules_csv Samples.bad_modules_txt Samples.main_csv
  = BadModules.FilterRun
      (Some [ [lit "lessonID"; lit "link"];
              [lit "L-100"; lit "https://host/c100/imsmanifest.xml"];
              [lit " L-300"; lit "https://host/c300/imsmanifest.xml"] ])
      None.
Proof. vm_compute. reflexivity. Qed.

(** A matching line with one field too many: the writer raises on it,
    and the matching line after it is not written. *)
Lemma writes_matching_rows_fails :
  ¬ writes_matching_rows Samples.bad_modules_txt Samples.long_line_csv.
Proof.
  unfold writes_matching_rows. intros Hclaim.
  apply (f_equal length) in Hclaim. vm_compute in Hclaim. discriminate.
Qed.

(** The run on that file: the header and the first matching line are
    written, then the writer raises.  A line that ends before the
    [lessonID] column ends the run before any file is created. *)
Example ragged_lines_sample :
  BadModules.extract_bad_modules_csv Samples.bad_modules_txt
    Samples.long_line_csv
  = BadModules.FilterRun
      (Some [ [lit "lessonID"; lit "link"];
              [lit "L-100"; lit "https://host/c100/imsmanifest.xml"] ])
      (Some (Exception
               (lit "dict contains fields not in fieldnames: None")))
  ∧ BadModules.extract_bad_modules_csv Samples.bad_modules_txt
      (Some [ [lit "link"; lit "lessonID"];
              [lit "https://host/c100/imsmanifest.xml"; lit "L-100"];
              [lit "https://host/c300/imsmanifest.xml"] ])
    = BadModules.FilterRun None
        (Some (Exception
                 (lit "'NoneType' object has no attribute 'strip'"))).
Proof. vm_compute. done. Qed.

(** The sample CSV meets the two conditions, and the filter writes its
    two matching lines. *)
Lemma extract_bad_modules_csv_exact_witness :
  Forall has_lesson_id (BadModules.rows_read Samples.main_csv)
  ∧ Forall (fits_header
              (BadModules.load_bad_modules_set Samples.bad_modules_txt))
           (BadModules.rows_read Samples.main_csv)
  ∧ BadModules.raised
      (BadModules.extract_bad_modules_csv Samples.bad_modules_txt
         Samples.main_csv) = None.
Proof.
  assert (Hids : Forall has_lesson_id
                   (BadModules.rows_read Samples.main_csv)).
  { apply Forall_forall. intros r Hr. unfold has_lesson_id.
    vm_compute in Hr. apply list_elem_of_In in Hr. simpl in Hr.
    destruct Hr as [<-|[<-|[<-|[<-|[]]]]]; vm_compute; discriminate. }
  assert (Hfit : Forall (fits_header
                           (BadModules.load_bad_modules_set
                              Samples.bad_modules_txt))
                        (BadModules.rows_read Samples.main_csv)).
  { apply Forall_forall. intros r Hr _.
    vm_compute in Hr. apply list_elem_of_In in Hr. simpl in Hr.
    destruct Hr as [<-|[<-|[<-|[<-|[]]]]]; reflexivity. }
  split; [exact Hids|]. split; [exact Hfit|].
  exact (proj1 (extract_bad_modules_csv_exact Samples.bad_modules_txt
                  Samples.main_csv Hids Hfit)).
Defined.



(** The file of the sample entry [img/a] lands at [out/img_a.png]. *)
Lemma clean_filename_sanitized_witness :
  entry_write Base64.b64decode Samples.open_wb (lit "out")
    (lit "img/a", JString Samples.payload_102)
  = Some (lit "out/img_a.png", repeat x00%byte 102)
  ∧ ∃ sep, (sep = [] ∨ sep = lit "/") ∧
           lit "out/img_a.png" = lit "out" ++ sep ++ clean_filename (lit "img/a").
Proof.
  assert (Hw : entry_write Base64.b64decode Samples.open_wb (lit "out")
                 (lit "img/a", JString Samples.payload_102)
               = Some (lit "out/img_a.png", repeat x00%byte 102))
    by (vm_compute; reflexivity).
  split; [exact Hw|].
  exact (proj1 (proj2 (clean_filename_sanitized Samples.json_loads
                         Base64.b64decode Samples.open_wb (lit "out")))
           (lit "img/a", JString Samples.payload_102)
           (lit "out/img_a.png") (repeat x00%byte 102) Hw).
Defined.



(** The two runs above, as the model computes them: the entry with the
    NUL key leaves the tree empty and the count at 0, and the file with
    the deep span ends in the parser's exception. *)
Example extract_refused_sample :
  process_entry Base64.b64decode Samples.open_wb (lit "out") (State ∅ 0)
    ([Ascii.zero], JString Samples.payload_102)
  = State ∅ 0
  ∧ extract_images_from_json Samples.json_loads Base64.b64decode
      Samples.open_wb (Some Samples.deep_text) (lit "out") ∅
    = (∅, Raise
            (Exception
               (lit "maximum recursion depth exceeded while decoding a JSON array from a unicode string"))).
Proof. vm_compute. done. Qed.

(** A batch of two tasks, the first of which fails, yields two records. *)
Lemma scrape_single_course_catches_witness :
  ∃ results,
    executor_map nat 2
      (scrape_single_course nat Samples.process_course_url Samples.time_spent)
      [ (UrlData (lit "https://host/c1/imsmanifest.xml") (lit "L1")
           (lit "one") None None, lit "fc-key-0", 1, 1);
        (UrlData (lit "https://host/c2/imsmanifest.xml") (lit "L2")
           (lit "two") None None, lit "fc-key-1", 2, 1) ]
    = Ret results ∧
    length results = 2.
Proof.
  destruct (proj2 (scrape_single_course_catches Samples.process_course_url
                     Samples.time_spent)
              [ (UrlData (lit "https://host/c1/imsmanifest.xml") (lit "L1")
                   (lit "one") None None, lit "fc-key-0", 1, 1);
                (UrlData (lit "https://host/c2/imsmanifest.xml") (lit "L2")
                   (lit "two") None None, lit "fc-key-1", 2, 1) ]
              2 (Nat.lt_0_succ 1))
    as (results & _ & Hres & _ & Hall & _).
  exists results. split; [exact Hres|].
  symmetry. exact (Forall2_length _ _ _ Hall).
Defined.

(** Three URLs over two keys: the run returns and creates three tasks. *)
Lemma round_robin_key_assignment_witness :
  0 < length Samples.api_keys
  ∧ ∃ runs,
      main_batches nat
        (scrape_single_course nat Samples.process_course_url
           Samples.time_spent)
        Samples.urls Samples.api_keys = Ret runs ∧
      length (all_tasks nat runs) = 3.
Proof.
  split; [exact (Nat.lt_0_succ 1)|].
  destruct (round_robin_key_assignment Samples.process_course_url
              Samples.time_spent Samples.urls Samples.api_keys
              (Nat.lt_0_succ 1)) as (runs & Hmain & Hlen & _).
  exists runs. split; [exact Hmain|exact Hlen].
Defined.


(** The whole run on the sample: two batches, keys in rotation, one
    failure recorded between two successes. *)
Example main_batches_sample :
  ∃ runs,
    main_batches nat
      (scrape_single_course nat Samples.process_course_url Samples.time_spent)
      Samples.urls Samples.api_keys = Ret runs
    ∧ (run_max_workers nat <$> runs) = [2; 1]
    ∧ ((λ t : task, t.1.1.2) <$> all_tasks nat runs)
      = [lit "fc-key-0"; lit "fc-key-1"; lit "fc-key-0"]
    ∧ (r_status nat <$> all_results nat runs)
      = [lit "success"; lit "failed"; lit "success"]
    ∧ (r_error nat <$> all_results nat runs)
      = [None; Some (lit "403 Forbidden"); None].
Proof. eexists. vm_compute. done. Qed.

End Witnesses.

(** * The rest of the code *)

(** ** Base URL and folder name *)

Section UrlFacts.

Import Scraper Urls Parallel.

Lemma rsplit_last_Some (sep : ascii) (s before after : str) :
  rsplit_last sep s = Some (before, after) →
  s = before ++ sep :: after ∧ sep ∉ after.
Proof.
  revert before. induction s as [|c s IH]; intros before; simpl; [done|].
  destruct (rsplit_last sep s) as [[b a]|] eqn:Hrec.
  - intros [= <- <-]. destruct (IH b eq_refl) as [-> Hnot]. done.
  - destruct (Ascii.eqb_spec c sep) as [->|]; [|done].
    intros [= <- <-]. split; [done|].
    clear IH. induction s as [|d s IHs]; [by intros ?%elem_of_nil|].
    simpl in Hrec. destruct (rsplit_last sep s) as [[b a]|]; [done|].
    destruct (Ascii.eqb_spec d sep); [done|].
    intros [->|?]%elem_of_cons; [done|]. by apply IHs.
Qed.

Lemma rsplit_last_None (sep : ascii) (s : str) :
  rsplit_last sep s = None → sep ∉ s.
Proof.
  induction s as [|c s IH]; simpl; [by intros _ ?%elem_of_nil|].
  destruct (rsplit_last sep s) as [[b a]|]; [done|].
  destruct (Ascii.eqb_spec c sep); [done|].
  intros _ [->|?]%elem_of_cons; [done|]. by apply IH.
Qed.

Lemma rsplit_last_app (sep : ascii) (before after : str) :
  sep ∉ after → rsplit_last sep (before ++ sep :: after) = Some (before, after).
Proof.
  intros Hnot.
  assert (Hafter : rsplit_last sep after = None).
  { destruct (rsplit_last sep after) as [[b a]|] eqn:Hr; [|done].
    apply rsplit_last_Some in Hr as [-> _].
    destruct Hnot. apply elem_of_app. right. by left. }
  induction before as [|c before IH]; simpl.
  - by rewrite Hafter, Ascii.eqb_refl.
  - by rewrite IH.
Qed.

(** X1. [get_base_url] returns on every string.  When the URL holds a
    '/', the result is the URL up to and including its last '/': what
    follows that '/' is cut off.  When it holds none, the result is the
    URL followed by '/'. *)
Theorem get_base_url_through_last_slash (url : str) :
  (∃ base, get_base_url url = Ret base)
  ∧ (∀ before file,
       url = before ++ "/"%char :: file → ("/"%char ∉ file) →
       get_base_url url = Ret (before ++ lit "/"))
  ∧ (("/"%char ∉ url) → get_base_url url = Ret (url ++ lit "/")).
Proof.
  unfold get_base_url, rsplit1. split_and!.
  - destruct (rsplit_last "/" url) as [[before after]|]; by eexists.
  - intros before file -> Hfile. by rewrite rsplit_last_app.
  - intros Hnone.
    destruct (rsplit_last "/" url) as [[before after]|] eqn:Hlast; [|done].
    apply rsplit_last_Some in Hlast as [-> _].
    destruct Hnone. apply elem_of_app. right. by left.
Qed.

(** X2. Taking the base URL of a base URL changes nothing. *)
Theorem get_base_url_idempotent (url : str) :
  (base ← get_base_url url; get_base_url base) = get_base_url url.
Proof.
  unfold get_base_url at 2 3, rsplit1.
  destruct (rsplit_last "/" url) as [[before after]|]; simpl.
  - unfold get_base_url, rsplit1.
    rewrite (rsplit_last_app "/" before []) by apply not_elem_of_nil. done.
  - unfold get_base_url, rsplit1.
    rewrite (rsplit_last_app "/" url []) by apply not_elem_of_nil. done.
Qed.

Lemma split_no_sep (sep : ascii) (s : str) : sep ∉ s → split sep s = [s].
Proof.
  induction s as [|c s IH]; simpl; [done|]. intros Hnot.
  apply not_elem_of_cons in Hnot as [Hne Hnot].
  destruct (Ascii.eqb_spec c sep); [done|]. by rewrite IH.
Qed.

Lemma split_app_sep (sep : ascii) (a b : str) :
  split sep (a ++ sep :: b) = split sep a ++ split sep b.
Proof.
  induction a as [|c a IH]; simpl.
  - by rewrite Ascii.eqb_refl.
  - destruct (Ascii.eqb c sep); rewrite IH; [done|].
    pose proof (split_nonempty sep a) as Hne.
    by destruct (split sep a).
Qed.

Lemma rstrip_char_manifest (prefix : str) :
  rstrip_char "/" (prefix ++ manifest) = prefix ++ manifest.
Proof.
  unfold rstrip_char. rewrite rev_app_distr.
  change (rev manifest) with ("l"%char :: rev (lit "imsmanifest.xm")).
  cbn [app drop_while]. change (Ascii.eqb "/" "l") with false. cbv iota.
  change ("l"%char :: rev (lit "imsmanifest.xm") ++ rev prefix)
    with (rev manifest ++ rev prefix).
  by rewrite <- rev_app_distr, rev_involutive.
Qed.

(** X3. For a manifest URL [root/folder/imsmanifest.xml], where [folder]
    holds no '/' and is not itself the manifest name, and no segment of
    [root] is the manifest name, the folder name is [folder] and the base
    URL is [root/folder/]: the files of the course are fetched from the
    directory the folder is named after. *)
Theorem folder_and_base_of_manifest_url (root folder : str) :
  "/"%char ∉ folder →
  folder ≠ manifest →
  manifest ∉ split "/" root →
  let url := root ++ lit "/" ++ folder ++ lit "/" ++ manifest in
  extract_folder_name url = Some folder ∧
  get_base_url url = Ret (root ++ lit "/" ++ folder ++ lit "/").
Proof.
  intros Hfolder Hne Hroot url. split.
  - unfold extract_folder_name, path_parts_of.
    assert (Hparts : split "/" (rstrip_char "/" url)
                     = split "/" root ++ [folder; manifest]).
    { unfold url.
      replace (root ++ lit "/" ++ folder ++ lit "/" ++ manifest)
        with ((root ++ lit "/" ++ folder ++ lit "/") ++ manifest)
        by (by rewrite <- !app_assoc).
      rewrite rstrip_char_manifest, <- !app_assoc.
      change (lit "/" ++ folder ++ lit "/" ++ manifest)
        with ("/"%char :: folder ++ "/"%char :: manifest).
      rewrite !split_app_sep, (split_no_sep _ folder) by done. done. }
    rewrite Hparts. set (parts := split "/" root ++ [folder; manifest]).
    set (n := length (split "/" root)).
    assert (Hfolder_at : parts !! n = Some folder).
    { unfold parts, n. by rewrite (list_lookup_middle _ _ _ _ eq_refl). }
    assert (Hmanifest_at : parts !! S n = Some manifest).
    { unfold parts, n. rewrite lookup_app_r by lia.
      by replace (S (length (split "/" root)) - length (split "/" root))
        with 1 by lia. }
    pose proof (manifest_loop_spec parts [] parts eq_refl) as Hloop.
    simpl in Hloop.
    destruct (manifest_loop parts 0 parts) as [r|].
    + destruct Hloop as (j & _ & Hj0 & Hj & Hmin & ->).
      assert (j = S n) as ->; [|by rewrite Nat.sub_succ, Nat.sub_0_r].
      destruct (decide (j < n)) as [Hlt|Hge].
      { destruct Hroot. apply list_elem_of_lookup. exists j.
        unfold parts in Hj. by rewrite lookup_app_l in Hj by (fold n; lia). }
      destruct (decide (j = n)) as [->|Hn]; [congruence|].
      destruct (decide (j = S n)) as [->|Hsn]; [done|].
      destruct (Hmin (S n)); [lia|lia|done].
    + by destruct (Hloop (S n) ltac:(lia) ltac:(lia)).
  - unfold get_base_url, rsplit1, url.
    replace (root ++ lit "/" ++ folder ++ lit "/" ++ manifest)
      with ((root ++ lit "/" ++ folder) ++ "/"%char :: manifest)
      by (by rewrite <- !app_assoc).
    rewrite rsplit_last_app; [simpl; by rewrite <- !app_assoc|].
    intros Hin. apply list_elem_of_In in Hin. simpl in Hin.
    intuition congruence.
Qed.

End UrlFacts.

(** ** The loaders *)

Section LoaderFacts.

Import BadModules Parallel Loaders Claims Properties.

Lemma drop_while_stops (p : ascii → bool) (s : str) :
  stops p (drop_while p s).
Proof.
  induction s as [|c s IH]; simpl; [done|].
  destruct (p c) eqn:Hc; [done|]. simpl. done.
Qed.

Lemma drop_while_fixed (p : ascii → bool) (s : str) :
  stops p s → drop_while p s = s.
Proof. destruct s as [|c s]; simpl; [done|]. by intros ->. Qed.

(** Dropping from the end keeps the head in place. *)
Lemma rstrip_stops (s : str) : stops isspace s → stops isspace (rstrip s).
Proof.
  intros Hs. unfold rstrip.
  pose proof (take_drop_while isspace (rev s)) as Hsplit.
  apply (f_equal (@rev ascii)) in Hsplit.
  rewrite rev_app_distr, rev_involutive in Hsplit.
  destruct (rev (drop_while isspace (rev s))) as [|c kept] eqn:Hkept; [done|].
  rewrite <- Hsplit in Hs. simpl in Hs. done.
Qed.

Lemma strip_trimmed (s : str) : trimmed (strip s).
Proof.
  unfold trimmed, strip. split.
  - apply rstrip_stops, drop_while_stops.
  - unfold rstrip. rewrite rev_involutive. apply drop_while_stops.
Qed.

Lemma trimmed_strip (s : str) : trimmed s → strip s = s.
Proof.
  intros [Hhead Hlast]. unfold strip, lstrip, rstrip.
  rewrite (drop_while_fixed _ s) by done.
  rewrite (drop_while_fixed _ (rev s)) by done.
  apply rev_involutive.
Qed.

Lemma strip_idempotent (s : str) : strip (strip s) = strip s.
Proof. apply trimmed_strip, strip_trimmed. Qed.

Lemma load_api_keys_foldl (lines acc : list str) :
  foldl (λ keys line,
           if truthy (strip line) then keys ++ [strip line] else keys)
        acc lines
  = acc ++ filter (λ key, key ≠ []) (strip <$> lines).
Proof.
  revert acc. induction lines as [|line lines IH]; intros acc; simpl.
  - by rewrite app_nil_r.
  - rewrite IH, filter_cons. destruct (truthy (strip line)) eqn:Hk.
    + apply truthy_true in Hk. rewrite decide_True by done.
      by rewrite <- app_assoc.
    + apply truthy_false in Hk. rewrite decide_False; [done|].
      by intros ?.
Qed.

(** X4. [load_api_keys] on an existing file returns the stripped lines
    that are not blank, in file order: no key is empty and no key has
    whitespace at either end.  With no file it raises. *)
Theorem load_api_keys_trimmed (lines : list str) :
  ∃ keys,
    load_api_keys (Some lines) = Ret keys ∧
    keys = filter (λ key, key ≠ []) (strip <$> lines) ∧
    Forall (λ key, key ≠ [] ∧ trimmed key ∧ strip key = key) keys ∧
    ∃ e, load_api_keys None = Raise e.
Proof.
  eexists. split_and!.
  - unfold load_api_keys. by rewrite load_api_keys_foldl.
  - done.
  - apply Forall_forall. intros key Hkey. simpl in Hkey.
    apply list_elem_of_filter in Hkey as [Hne Hkey].
    apply list_elem_of_fmap in Hkey as (line & -> & _).
    split_and!; [done|apply strip_trimmed|apply strip_idempotent].
  - by eexists.
Qed.

Lemma limit_reached_spec (z : Z) (n : nat) :
  z ≠ 0%Z → limit_reached (Some z) n = bool_decide (Z.to_nat z ≤ n).
Proof.
  intros Hz. unfold limit_reached.
  destruct (Z.eqb_spec z 0) as [?|_]; [done|]. simpl.
  case_bool_decide; [apply Z.leb_le|apply Z.leb_gt]; lia.
Qed.

Lemma limit_reached_never (limit : option Z) (n : nat) :
  limit = None ∨ limit = Some 0%Z → limit_reached limit n = false.
Proof. by intros [->| ->]. Qed.

Lemma getitem_dict_get (r : row) (key : str) :
  is_Some (r !! key) → py_getitem r key = Ret (dict_get r key []).
Proof. intros [v Hv]. unfold py_getitem, dict_get. by rewrite Hv. Qed.

Lemma load_all_urls_from_all (i : nat) (limit : option Z) (rows : list row) :
  limit = None ∨ limit = Some 0%Z →
  Forall has_url_columns rows →
  load_all_urls_from i limit rows = Ret (url_of_row <$> rows).
Proof.
  intros Hlimit Hrows. revert i.
  induction Hrows as [|r rows (Hlink & Hid & Hname) _ IH]; intros i; [done|].
  cbn [load_all_urls_from]. rewrite limit_reached_never by done.
  rewrite !getitem_dict_get by done. simpl. by rewrite IH.
Qed.

Lemma load_all_urls_from_take (i : nat) (z : Z) (rows : list row) :
  z ≠ 0%Z →
  Forall has_url_columns rows →
  load_all_urls_from i (Some z) rows
  = Ret (url_of_row <$> take (Z.to_nat z - i) rows).
Proof.
  intros Hz Hrows. revert i.
  induction Hrows as [|r rows (Hlink & Hid & Hname) _ IH]; intros i.
  - by rewrite take_nil.
  - cbn [load_all_urls_from]. rewrite limit_reached_spec by done.
    case_bool_decide as Hreached.
    + by replace (Z.to_nat z - i) with 0 by lia.
    + rewrite !getitem_dict_get by done. simpl. rewrite IH. simpl.
      replace (Z.to_nat z - i) with (S (Z.to_nat z - S i)) by lia. done.
Qed.

(** X5. On a CSV whose rows have the three columns, [load_all_urls]
    returns the rows in order, cut by the limit: all of them for no limit
    and for limit 0, the first [limit] for a positive limit, none for a
    negative one.  A row within the limit that lacks the [link] column
    raises the [KeyError], and so does a missing file. *)
Theorem load_all_urls_limited (limit : option Z) (fieldnames : list str)
    (rows : list row) :
  Forall has_url_columns rows →
  load_all_urls limit (Some (fieldnames, rows))
  = Ret (url_of_row <$> limited limit rows)
  ∧ (∀ r rest, r !! lit "link" = None → limit_reached limit 0 = false →
       load_all_urls limit (Some (fieldnames, r :: rest))
       = Raise (Exception (lit "'link'")))
  ∧ ∃ e, load_all_urls limit None = Raise e.
Proof.
  intros Hrows. split_and!.
  - unfold load_all_urls, limited. destruct limit as [z|].
    + destruct (Z.eqb_spec z 0) as [->|Hz].
      * apply load_all_urls_from_all; [by right|done].
      * rewrite load_all_urls_from_take by done.
        by rewrite Nat.sub_0_r.
    + apply load_all_urls_from_all; [by left|done].
  - intros r rest Hlink Hlimit. unfold load_all_urls.
    cbn [load_all_urls_from]. rewrite Hlimit.
    assert (py_getitem r (lit "link") = Raise (Exception (lit "'link'")))
      as -> by (unfold py_getitem; by rewrite Hlink).
    done.
  - by eexists.
Qed.

Lemma matching_loop_all (bad_modules : gset str) (limit : option Z)
    (rows : list row) (matching_urls : list url_data) :
  limit = None ∨ limit = Some 0%Z →
  Forall has_course_columns rows →
  matching_loop bad_modules limit matching_urls rows
  = Ret (matching_urls
         ++ (course_of_row <$> filter (row_selected bad_modules) rows)).
Proof.
  intros Hlimit Hrows. revert matching_urls.
  induction Hrows as [|r rows ((Hlink & Hid & Hname) & Hcid & Hcname) _ IH];
    intros matching_urls.
  - simpl. by rewrite app_nil_r.
  - cbn [matching_loop]. rewrite (getitem_dict_get r (lit "lessonID")) by done.
    simpl. rewrite filter_cons.
    destruct (decide (row_selected bad_modules r)) as [Hsel|Hsel].
    + rewrite decide_True by exact Hsel.
      rewrite limit_reached_never by done.
      rewrite !getitem_dict_get by done. simpl. rewrite IH.
      by rewrite <- app_assoc.
    + rewrite decide_False by exact Hsel. apply IH.
Qed.

Lemma matching_loop_take (bad_modules : gset str) (z : Z)
    (rows : list row) (matching_urls : list url_data) :
  z ≠ 0%Z →
  length matching_urls ≤ Z.to_nat z →
  Forall has_course_columns rows →
  matching_loop bad_modules (Some z) matching_urls rows
  = Ret (take (Z.to_nat z)
           (matching_urls
            ++ (course_of_row <$> filter (row_selected bad_modules) rows))).
Proof.
  intros Hz Hlen Hrows. revert matching_urls Hlen.
  induction Hrows as [|r rows ((Hlink & Hid & Hname) & Hcid & Hcname) _ IH];
    intros matching_urls Hlen.
  - simpl. rewrite app_nil_r. by rewrite take_ge.
  - cbn [matching_loop]. rewrite (getitem_dict_get r (lit "lessonID")) by done.
    cbn [mbind exc_bind Exc.bind]. rewrite filter_cons.
    destruct (decide (row_selected bad_modules r)) as [Hsel|Hsel].
    + rewrite decide_True by exact Hsel.
      rewrite limit_reached_spec by done.
      case_bool_decide as Hreached.
      * rewrite take_app_le by lia. by rewrite take_ge by lia.
      * rewrite !getitem_dict_get by done. simpl.
        rewrite IH by (rewrite length_app; simpl; lia).
        by rewrite <- app_assoc.
    + rewrite decide_False by exact Hsel. by apply IH.
Qed.

Lemma matching_urls_limited (bad_modules_list : list str)
    (limit : option Z) (fieldnames : list str) (rows : list row) :
  Forall has_course_columns rows →
  load_matching_urls_from_csv bad_modules_list limit
    (Some (fieldnames, rows))
  = Ret (limited limit
           (course_of_row
            <$> filter (row_selected (list_to_set bad_modules_list)) rows)).
Proof.
  intros Hrows.
  unfold load_matching_urls_from_csv, limited. destruct limit as [z|].
  - destruct (Z.eqb_spec z 0) as [->|Hz].
    + rewrite matching_loop_all; [done|by right|done].
    + rewrite matching_loop_take; [done|done|simpl; lia|done].
  - rewrite matching_loop_all; [done|by left|done].
Qed.

(** X6. On a CSV whose rows have the five columns,
    [load_matching_urls_from_csv] returns the rows whose raw [lessonID] is
    in the list, in CSV order, cut by the limit as in [load_all_urls];
    with no CSV it returns the empty list. *)
Theorem load_matching_urls_limited (bad_modules_list : list str)
    (limit : option Z) (fieldnames : list str) (rows : list row) :
  Forall has_course_columns rows →
  load_matching_urls_from_csv bad_modules_list limit
    (Some (fieldnames, rows))
  = Ret (limited limit
           (course_of_row
            <$> filter (row_selected (list_to_set bad_modules_list)) rows))
  ∧ load_matching_urls_from_csv bad_modules_list limit None = Ret [].
Proof.
  intros Hrows. split; [by apply matching_urls_limited|done].
Qed.







End LoaderFacts.

(** ** The run of the parallel scraper *)

Section RunFacts.

Import Parallel Claims Properties.

Context {float : Type}.
Context (process_course_url : str → str → exc unit).
Context (time_spent : str → str → float).

#[local] Abbreviation scrape_course :=
  (scrape_single_course float process_course_url time_spent).

(** X8. [main] raises in one case only: without keys, the division by
    zero, before any batch and whatever the URLs.  With keys it runs
    [ceil(N / K)] batches, none of them empty, so the executor's
    [ValueError] of [process_batch] never comes up; with no URL it runs no
    batch. *)
Theorem main_batches_raises_iff (urls : list url_data)
    (api_keys : list str) :
  let K := length api_keys in
  match main_batches float scrape_course urls api_keys with
  | Raise e =>
      api_keys = [] ∧
      e = Exception (lit "integer division or modulo by zero")
  | Ret runs =>
      api_keys ≠ [] ∧
      length runs = (length urls + K - 1) `div` K ∧
      (urls = [] → runs = []) ∧
      ∀ run, run ∈ runs →
        run_tasks float run ≠ [] ∧ 0 < run_max_workers float run
  end.
Proof.
  intros K. destruct (decide (api_keys = [])) as [->|Hkeys]; [done|].
  assert (HK : 0 < K) by (unfold K; destruct api_keys; [done|simpl; lia]).
  destruct (main_batches_spec scrape_course urls api_keys
              (scrape_total process_course_url time_spent) HK)
    as (runs & -> & Hruns). fold K in Hruns.
  pose proof (Forall2_length _ _ _ Hruns) as Hlen.
  rewrite length_seq in Hlen.
  split_and!; [done|done| |].
  - intros ->. simpl in Hlen. rewrite Nat.div_small in Hlen by lia.
    by destruct runs.
  - intros run [b Hrun]%list_elem_of_lookup.
    destruct (Forall2_lookup_r _ _ _ _ _ Hruns Hrun)
      as (bn & Hbn & (Htasks & Hworkers & _)).
    apply lookup_seq in Hbn as [-> Hb]. fold K in Htasks, Hworkers.
    destruct (batch_tasks_from_spec 0 (batch_urls_of urls K (1 + b))
                api_keys (1 + b) HK) as (tasks & Htasks' & Htl & _).
    unfold batch_tasks in Htasks. rewrite Htasks' in Htasks.
    injection Htasks as Heq. subst tasks.
    pose proof (total_batches_start (length urls) K (1 + b) HK
                  ltac:(lia) ltac:(lia)) as Hstart.
    pose proof (batch_urls_of_length urls K (1 + b)) as Hbl.
    split.
    + intros Hnil. rewrite Hnil in Htl.
      change (0 = length (batch_urls_of urls K (1 + b))) in Htl. lia.
    + rewrite Hworkers. lia.
Qed.

(** X9. [process_batch] raises in two cases only: on an empty batch, the
    executor's [ValueError], with or without keys; on a batch that is not
    empty with an empty key list, the modulo by zero.  In every other case
    it returns one record per URL of the batch, from a pool of
    [min(len(batch_urls), len(api_keys))] workers. *)
Theorem process_batch_raises_iff (batch_urls : list url_data)
    (api_keys : list str) (batch_num : nat) :
  match process_batch float scrape_course batch_urls api_keys batch_num with
  | Raise e =>
      (batch_urls = [] ∧
       e = Exception (lit "max_workers must be greater than 0"))
      ∨ (batch_urls ≠ [] ∧ api_keys = [] ∧
         e = Exception (lit "integer modulo by zero"))
  | Ret run =>
      batch_urls ≠ [] ∧ api_keys ≠ [] ∧
      length (run_tasks float run) = length batch_urls ∧
      length (run_results float run) = length batch_urls ∧
      run_max_workers float run = min (length batch_urls) (length api_keys)
  end.
Proof.
  destruct (decide (batch_urls = [])) as [->|Hbatch]; [by left|].
  destruct (decide (api_keys = [])) as [->|Hkeys].
  { destruct batch_urls; [done|by right]. }
  assert (HK : 0 < length api_keys) by (destruct api_keys; [done|simpl; lia]).
  assert (HB : 0 < length batch_urls)
    by (destruct batch_urls; [done|simpl; lia]).
  unfold process_batch, batch_tasks.
  destruct (batch_tasks_from_spec 0 batch_urls api_keys batch_num HK)
    as (tasks & -> & Hlen & _).
  cbn [mbind exc_bind Exc.bind].
  destruct (executor_map_total
              (min (length batch_urls) (length api_keys)) scrape_course tasks)
    as (results & -> & Hall);
    [lia|apply (scrape_total process_course_url time_spent)|].
  cbn [mbind exc_bind Exc.bind run_tasks run_results run_max_workers].
  apply Forall2_length in Hall.
  split_and!; [done|done|done|lia|done].
Qed.

Lemma scrape_record_of (args : task) (r : result float) :
  scrape_course args = Ret r → record_of process_course_url args r.
Proof.
  destruct args as [[[url_data api_key] worker_id] batch_num].
  unfold scrape_single_course, record_of, task_key. simpl.
  destruct (process_course_url api_key (url url_data)) as [[]|e]; simpl;
    intros [= <-]; by split_and!.
Qed.

Lemma runs_tasks_results (worker : task → exc (result float))
    (urls : list url_data) (api_keys : list str) (batch_nums : list nat)
    (runs : list (batch_run float)) :
  Forall2 (batch_run_ok worker urls api_keys) batch_nums runs →
  Forall2 (λ args r, worker args = Ret r)
          (all_tasks float runs) (all_results float runs).
Proof.
  induction 1 as [|batch_num run batch_nums runs (_ & _ & Hrun) _ IH].
  - constructor.
  - unfold all_tasks, all_results. rewrite !fmap_cons. simpl.
    by apply Forall2_app.
Qed.

Lemma filter_partition_length {A} (P Q : A → Prop)
    `{∀ x, Decision (P x)} `{∀ x, Decision (Q x)} (l : list A) :
  Forall (λ x, (P x ∧ ¬ Q x) ∨ (Q x ∧ ¬ P x)) l →
  length (filter P l) + length (filter Q l) = length l.
Proof.
  induction 1 as [|x l Hx _ IH]; [done|].
  rewrite !filter_cons.
  destruct Hx as [[HP HQ]|[HQ HP]].
  - rewrite decide_True, decide_False by done. simpl. lia.
  - rewrite decide_False, decide_True by done. simpl. lia.
Qed.

(** X10. With [K > 0] keys the run returns one record per URL, in URL
    order: the record at index [t] carries the lesson of [urls[t]], the
    worker number [t mod K + 1] and the batch number [t div K + 1], and it
    is a failure exactly when processing that URL with key
    [keys[t mod K]] raised.  The successes and the failures together
    number the URLs. *)
Theorem all_results_one_per_url (urls : list url_data)
    (api_keys : list str) :
  0 < length api_keys →
  let K := length api_keys in
  ∃ runs,
    main_batches float scrape_course urls api_keys = Ret runs ∧
    length (all_results float runs) = length urls ∧
    (∀ t url_data, urls !! t = Some url_data →
       ∃ api_key r,
         api_keys !! (t mod K) = Some api_key ∧
         all_results float runs !! t = Some r ∧
         record_of process_course_url
           (url_data, api_key, t mod K + 1, t `div` K + 1) r) ∧
    length (filter succeeded (all_results float runs))
    + length (filter failed (all_results float runs))
    = length urls.
Proof.
  intros HK K.
  destruct (main_batches_spec scrape_course urls api_keys
              (scrape_total process_course_url time_spent) HK)
    as (runs & Hmain & Hruns). fold K in Hruns.
  pose proof (runs_tasks_results _ _ _ _ _ Hruns) as Hpairs.
  assert (Hlen : length (all_results float runs) = length urls).
  { rewrite <- (Forall2_length _ _ _ Hpairs).
    rewrite (all_tasks_length scrape_course urls api_keys _ 0 runs HK Hruns).
    pose proof (total_batches_cover (length urls) K HK). fold K. simpl. lia. }
  exists runs. split_and!; [done|done| |].
  - intros t ud Hud.
    destruct (all_tasks_lookup scrape_course urls api_keys _ 0 runs HK Hruns
                ltac:(pose proof (total_batches_cover (length urls) K HK);
                      simpl; fold K; lia) t ud Hud) as (key & Hkey & Htask).
    destruct (Forall2_lookup_l _ _ _ _ _ Hpairs Htask) as (r & Hr & Hscrape).
    exists key, r. split_and!; [done|done|].
    by apply scrape_record_of.
  - rewrite <- Hlen. apply filter_partition_length.
    apply Forall_forall. intros r Hr.
    apply list_elem_of_lookup in Hr as [t Hr].
    destruct (Forall2_lookup_r _ _ _ _ _ Hpairs Hr) as (args & _ & Hscrape).
    apply scrape_record_of in Hscrape as (_ & _ & _ & _ & Hstatus).
    unfold succeeded, failed in *.
    destruct (process_course_url _ _); destruct Hstatus as [Hst _];
      rewrite Hst; [left|right]; by split.
Qed.

(** X11. With [K > 0] keys, the tasks of a batch carry the first keys of
    the list, one each: when the keys are pairwise different, no key is
    given to two tasks of the same batch. *)
Theorem batch_keys_not_shared (urls : list url_data) (api_keys : list str) :
  0 < length api_keys →
  ∃ runs,
    main_batches float scrape_course urls api_keys = Ret runs ∧
    ∀ run, run ∈ runs →
      task_key <$> run_tasks float run
      = take (length (run_tasks float run)) api_keys ∧
      (NoDup api_keys → NoDup (task_key <$> run_tasks float run)).
Proof.
  intros HK.
  destruct (main_batches_spec scrape_course urls api_keys
              (scrape_total process_course_url time_spent) HK)
    as (runs & Hmain & Hruns).
  exists runs. split; [done|]. intros run Hrun.
  apply list_elem_of_lookup in Hrun as [b Hrun].
  destruct (Forall2_lookup_r _ _ _ _ _ Hruns Hrun)
    as (bn & Hbn & (Htasks & _ & _)).
  apply lookup_seq in Hbn as [-> _].
  set (K := length api_keys) in *.
  destruct (batch_tasks_from_spec 0 (batch_urls_of urls K (1 + b))
              api_keys (1 + b) HK) as (tasks & Htasks' & Hlen & Hnth).
  unfold batch_tasks in Htasks. rewrite Htasks' in Htasks.
  injection Htasks as Heq. subst tasks.
  assert (Hshort : length (run_tasks float run) ≤ K).
  { rewrite Hlen, batch_urls_of_length. lia. }
  assert (Hkeys : task_key <$> run_tasks float run
                  = take (length (run_tasks float run)) api_keys).
  { apply list_eq. intros n. rewrite list_lookup_fmap.
    destruct (decide (n < length (run_tasks float run))) as [Hn|Hn].
    - rewrite lookup_take_lt by done.
      destruct (lookup_lt_is_Some_2 (batch_urls_of urls K (1 + b)) n)
        as [ud Hud]; [lia|].
      destruct (Hnth n ud Hud) as (key & Hkey & ->). simpl.
      fold K in Hkey. by rewrite Nat.mod_small in Hkey by lia.
    - rewrite (lookup_ge_None_2 (run_tasks float run)) by lia.
      rewrite lookup_take_ge by lia. done. }
  split; [done|]. intros Hnodup. rewrite Hkeys. eapply sublist_NoDup; [done|apply sublist_take].
Qed.

Lemma demo_tasks_from_spec (i : nat) (urls : list url_data)
    (api_keys : list str) :
  0 < length api_keys →
  ∃ tasks,
    demo_tasks_from i urls api_keys = Ret tasks ∧
    length tasks = length urls ∧
    ∀ n url_data, urls !! n = Some url_data →
      ∃ api_key,
        api_keys !! ((i + n) mod length api_keys) = Some api_key ∧
        tasks !! n = Some (url_data, api_key, i + n + 1).
Proof.
  intros HK. revert i.
  induction urls as [|url_data rest IH]; intros i; simpl.
  - exists []. split_and!; [done|done|]. intros n ud Hn. done.
  - unfold py_mod. destruct (Nat.eqb_spec (length api_keys) 0) as [?|_]; [lia|].
    simpl. unfold py_index.
    destruct (lookup_lt_is_Some_2 api_keys (i mod length api_keys))
      as [api_key Hkey]; [apply Nat.mod_upper_bound; lia|].
    rewrite Hkey. simpl.
    destruct (IH (S i)) as (tasks & -> & Hlen & Hnth). simpl.
    eexists. split_and!; [done|by simpl; rewrite Hlen|].
    intros [|n] ud Hn; simpl in *.
    + injection Hn as <-. exists api_key. by rewrite Nat.add_0_r.
    + destruct (Hnth n ud Hn) as (key & Hk & Ht).
      exists key. replace (i + S n) with (S i + n) by lia. done.
Qed.

(** X12. The demo builds one task per URL: task [t] carries [urls[t]],
    the key [keys[t mod K]] and the worker number [t + 1].  Its comment
    "each gets a different API key" holds when the URLs are no more than
    the keys and the keys are pairwise different; with fewer keys the
    tasks [t] and [t + K] share one. *)
Theorem demo_tasks_round_robin (urls : list url_data) (api_keys : list str) :
  0 < length api_keys →
  let K := length api_keys in
  ∃ tasks,
    demo_tasks_from 0 urls api_keys = Ret tasks ∧
    length tasks = length urls ∧
    (∀ t url_data, urls !! t = Some url_data →
       ∃ api_key, api_keys !! (t mod K) = Some api_key ∧
                  tasks !! t = Some (url_data, api_key, t + 1)) ∧
    (length urls ≤ K → NoDup api_keys →
       NoDup ((λ t : url_data * str * nat, t.1.2) <$> tasks)) ∧
    (∀ t a b, tasks !! t = Some a → tasks !! (t + K) = Some b →
              a.1.2 = b.1.2).
Proof.
  intros HK K.
  destruct (demo_tasks_from_spec 0 urls api_keys HK)
    as (tasks & Htasks & Hlen & Hnth). fold K in Hnth.
  exists tasks. split_and!; [done|done|done| |].
  - intros Hshort Hnodup.
    assert (Hkeys : (λ t : url_data * str * nat, t.1.2) <$> tasks
                    = take (length tasks) api_keys).
    { apply list_eq. intros n. rewrite list_lookup_fmap.
      destruct (decide (n < length tasks)) as [Hn|Hn].
      - rewrite lookup_take_lt by done.
        destruct (lookup_lt_is_Some_2 urls n) as [ud Hud]; [lia|].
        destruct (Hnth n ud Hud) as (key & Hkey & ->). simpl.
        by rewrite Nat.mod_small in Hkey by lia.
      - rewrite (lookup_ge_None_2 tasks) by lia.
        rewrite lookup_take_ge by lia. done. }
    rewrite Hkeys. eapply sublist_NoDup; [done|apply sublist_take].
  - intros t a b Ha Hb.
    destruct (lookup_lt_is_Some_2 urls t) as [ud Hud];
      [apply lookup_lt_Some in Ha; lia|].
    destruct (lookup_lt_is_Some_2 urls (t + K)) as [ud' Hud'];
      [apply lookup_lt_Some in Hb; lia|].
    destruct (Hnth t ud Hud) as (key & Hkey & Ht).
    destruct (Hnth (t + K) ud' Hud') as (key' & Hkey' & Ht').
    simpl in *. rewrite Ha in Ht. rewrite Hb in Ht'.
    injection Ht as ->. injection Ht' as ->. simpl.
    replace ((t + K) mod K) with (t mod K) in Hkey'.
    + congruence.
    + replace (t + K) with (t + 1 * K) by lia.
      symmetry. apply Nat.Div0.mod_add.
Qed.

End RunFacts.

(** ** The JSON files of a course *)

Section JsonFileFacts.

Import Urls Claims Properties.

Lemma lit_inj (a b : string) : lit a = lit b → a = b.
Proof.
  intros H. apply (f_equal String.string_of_list_ascii) in H.
  unfold lit in H. by rewrite !String.string_of_list_ascii_of_string in H.
Qed.

Lemma fallback_foldl (l : list nat) (acc : list str) :
  foldl (λ json_files i,
           json_files ++ [lit "dr/img" ++ str_of_int i ++ lit ".json"])
        acc l
  = acc ++ ((λ i, lit "dr/img" ++ str_of_int i ++ lit ".json") <$> l).
Proof.
  revert acc. induction l as [|i l IH]; intros acc; simpl.
  - by rewrite app_nil_r.
  - by rewrite IH, <- app_assoc.
Qed.

(** A decimal numeral holds digits only. *)
Lemma pretty_N_go_digits (x : N) (s : string) :
  Forall (λ c, isdigit c = true) (lit s) →
  Forall (λ c, isdigit c = true) (lit (pretty_N_go x s)).
Proof.
  revert s. induction (N.lt_wf_0 x) as [x _ IH]; intros s Hs.
  destruct (decide (x = 0%N)) as [->|Hx]; [by rewrite pretty_N_go_0|].
  rewrite pretty_N_go_step by lia. apply IH.
  - apply N.div_lt; lia.
  - unfold lit. simpl. constructor; [|done].
    unfold pretty_N_char. by repeat case_match.
Qed.

Lemma str_of_int_digits (i : nat) :
  Forall (λ c, isdigit c = true) (str_of_int i).
Proof.
  unfold str_of_int, pretty, pretty_nat, pretty, pretty_N.
  case_decide; [by repeat constructor|].
  apply pretty_N_go_digits. constructor.
Qed.

Lemma str_of_int_inj (i j : nat) : str_of_int i = str_of_int j → i = j.
Proof. intros H. apply lit_inj in H. by apply (inj pretty). Qed.

Lemma digit_plain (c : ascii) :
  isdigit c = true → c ≠ "/"%char ∧ c ≠ "\"%char ∧ c ≠ "m"%char.
Proof. intros Hc. split_and!; by intros ->. Qed.

Lemma isword_plain (c : ascii) :
  isword c = true → c ≠ "/"%char ∧ c ≠ "\"%char.
Proof. intros Hc. split; by intros ->. Qed.

Lemma Forall_plain (P : ascii → Prop) (s : str) :
  (∀ c, P c → c ≠ "/"%char ∧ c ≠ "\"%char) → Forall P s → plain s.
Proof.
  intros HP Hs. split; intros Hin;
    (eapply Forall_forall in Hs; [|exact Hin]); by destruct (HP _ Hs).
Qed.

Lemma plain_app (a b : str) : plain a → plain b → plain (a ++ b).
Proof.
  intros [Ha1 Ha2] [Hb1 Hb2].
  split; intros [?|?]%elem_of_app; done.
Qed.

Lemma plain_lit_check (s : str) :
  forallb (λ c, negb (Ascii.eqb c "/") && negb (Ascii.eqb c "\")) s = true →
  plain s.
Proof.
  intros Hs. apply (Forall_plain (λ c, c ≠ "/"%char ∧ c ≠ "\"%char));
    [done|].
  apply Forall_forall. intros c Hc. apply list_elem_of_In in Hc.
  rewrite forallb_forall in Hs. specialize (Hs c Hc).
  apply andb_true_iff in Hs as [H1 H2].
  apply negb_true_iff in H1, H2.
  split; intros ->; by rewrite Ascii.eqb_refl in *.
Qed.

Lemma replace_plain (a b : ascii) (s : str) : a ∉ s → replace a b s = s.
Proof.
  induction s as [|c s IH]; [done|]. intros Hnot.
  apply not_elem_of_cons in Hnot as [Hne Hnot]. simpl.
  destruct (Ascii.eqb_spec c a); [congruence|]. by rewrite IH.
Qed.

(** The safe name of a JSON file name: the '/' becomes '_'. *)
Lemma safe_filename_json_ref (a b : str) :
  plain a → plain b →
  safe_filename (a ++ "/"%char :: b) = a ++ "_"%char :: b.
Proof.
  intros [Ha1 Ha2] [Hb1 Hb2]. unfold safe_filename.
  assert (Hfirst : replace "/" "_" (a ++ "/"%char :: b) = a ++ "_"%char :: b).
  { unfold replace at 1. rewrite map_app. cbn [map].
    fold (replace "/" "_" a). fold (replace "/" "_" b).
    rewrite !replace_plain by done. by rewrite Ascii.eqb_refl. }
  rewrite Hfirst. apply replace_plain.
  intros [?|[?|?]%elem_of_cons]%elem_of_app; done.
Qed.

Lemma safe_filename_inj (m m' : str) :
  json_ref m → json_ref m' → safe_filename m = safe_filename m' → m = m'.
Proof.
  intros (a & b & -> & Hlen & Ha & Hb) (a' & b' & -> & Hlen' & Ha' & Hb').
  rewrite !safe_filename_json_ref by done. intros Heq.
  apply app_inj_1 in Heq as [-> [= ->]]; [done|congruence].
Qed.

Lemma safe_filename_plain (m : str) : json_ref m → plain (safe_filename m).
Proof.
  intros (a & b & -> & _ & Ha & Hb).
  rewrite safe_filename_json_ref by done.
  apply plain_app; [done|].
  destruct Hb as [Hb1 Hb2].
  split; intros [?|?]%elem_of_cons; done.
Qed.

Lemma fallback_name_json_ref (i : nat) :
  json_ref (lit "dr/img" ++ str_of_int i ++ lit ".json").
Proof.
  exists (lit "dr"), (lit "img" ++ str_of_int i ++ lit ".json").
  split_and!; [done|done|by apply plain_lit_check|].
  apply plain_app; [by apply plain_lit_check|].
  apply plain_app; [|by apply plain_lit_check].
  apply (Forall_plain (λ c, isdigit c = true)); [|apply str_of_int_digits].
  intros c Hc. by destruct (digit_plain c Hc) as (? & ? & _).
Qed.

Lemma fallback_name_inj (i j : nat) :
  lit "dr/img" ++ str_of_int i ++ lit ".json"
  = lit "dr/img" ++ str_of_int j ++ lit ".json" → i = j.
Proof.
  intros H. apply app_inv_head in H. apply app_inv_tail in H.
  by apply str_of_int_inj.
Qed.

Lemma fallback_name_not_metadata (i : nat) :
  lit "dr/img" ++ str_of_int i ++ lit ".json" ≠ lit "dr/imgmd.json" ∧
  lit "dr/img" ++ str_of_int i ++ lit ".json" ≠ lit "dr/metadata.json".
Proof.
  pose proof (str_of_int_digits i) as Hdigits.
  split; intros H.
  - change (lit "dr/imgmd.json") with (lit "dr/img" ++ lit "md.json") in H.
    apply app_inv_head in H.
    destruct (str_of_int i) as [|c rest]; [done|].
    injection H as -> _. by inversion Hdigits.
  - by injection H.
Qed.

Lemma fallback_list (max_files : nat) :
  get_fallback_json_files max_files
  = ((λ i, lit "dr/img" ++ str_of_int i ++ lit ".json") <$> seq 1 max_files)
    ++ [lit "dr/imgmd.json"; lit "dr/metadata.json"].
Proof. unfold get_fallback_json_files. by rewrite fallback_foldl. Qed.

Lemma fallback_NoDup (max_files : nat) :
  NoDup (get_fallback_json_files max_files).
Proof.
  rewrite fallback_list. apply NoDup_app. split_and!.
  - apply NoDup_fmap_2_strong; [|apply NoDup_seq].
    intros i j _ _. apply fallback_name_inj.
  - intros name Hname Hmeta.
    apply list_elem_of_fmap in Hname as (i & -> & _).
    destruct (fallback_name_not_metadata i) as [H1 H2].
    apply elem_of_cons in Hmeta as [?|Hmeta]; [done|].
    apply elem_of_cons in Hmeta as [?|Hmeta]; [done|].
    by apply elem_of_nil in Hmeta.
  - apply NoDup_cons. split; [|apply NoDup_singleton].
    intros [=]%list_elem_of_singleton.
Qed.

Lemma fallback_refs (max_files : nat) :
  Forall json_ref (get_fallback_json_files max_files).
Proof.
  rewrite fallback_list. apply Forall_app. split.
  - apply Forall_fmap, Forall_forall. intros i _. simpl.
    apply fallback_name_json_ref.
  - repeat constructor.
    + exists (lit "dr"), (lit "imgmd.json").
      split_and!; [done|done|by apply plain_lit_check..].
    + exists (lit "dr"), (lit "metadata.json").
      split_and!; [done|done|by apply plain_lit_check..].
Qed.

Lemma fallback_length (max_files : nat) :
  length (get_fallback_json_files max_files) = max_files + 2.
Proof. by rewrite fallback_list, length_app, length_fmap, length_seq. Qed.

Lemma safe_names_NoDup (json_files : list str) :
  Forall json_ref json_files → NoDup json_files →
  NoDup (safe_filename <$> json_files).
Proof.
  intros Hrefs Hnodup. apply NoDup_fmap_2_strong; [|done].
  intros m m' Hm Hm'. apply safe_filename_inj.
  - eapply Forall_forall in Hrefs; [|exact Hm]. done.
  - eapply Forall_forall in Hrefs; [|exact Hm']. done.
Qed.

Lemma safe_names_plain (json_files : list str) :
  Forall json_ref json_files → Forall plain (safe_filename <$> json_files).
Proof.
  intros Hrefs. apply Forall_fmap. eapply Forall_impl; [exact Hrefs|].
  intros m Hm. by apply safe_filename_plain.
Qed.

(** X13. [get_fallback_json_files(n)] is [dr/img1.json] to
    [dr/img<n>.json] followed by the two metadata names: [n + 2] names,
    pairwise different, whose safe file names are pairwise different too
    and hold no path separator. *)
Theorem fallback_json_files_distinct (max_files : nat) :
  let json_files := get_fallback_json_files max_files in
  json_files
  = ((λ i, lit "dr/img" ++ str_of_int i ++ lit ".json") <$> seq 1 max_files)
    ++ [lit "dr/imgmd.json"; lit "dr/metadata.json"]
  ∧ length json_files = max_files + 2
  ∧ NoDup json_files
  ∧ Forall json_ref json_files
  ∧ NoDup (safe_filename <$> json_files)
  ∧ Forall plain (safe_filename <$> json_files).
Proof.
  intros json_files. split_and!.
  - apply fallback_list.
  - apply fallback_length.
  - apply fallback_NoDup.
  - apply fallback_refs.
  - apply safe_names_NoDup; [apply fallback_refs|apply fallback_NoDup].
  - apply safe_names_plain, fallback_refs.
Qed.

Lemma strip_prefix_nocase_spec (p s matched after : str) :
  strip_prefix_nocase p s = Some (matched, after) →
  s = matched ++ after ∧ same_nocase p matched.
Proof.
  revert s matched. induction p as [|a p IH]; intros s matched; simpl.
  - intros [= <- <-]. split; [done|constructor].
  - destruct s as [|c s]; [done|].
    destruct (eqb_nocase a c) eqn:Hac; [|done].
    destruct (strip_prefix_nocase p s) as [[m r]|] eqn:Hrec; [|done].
    intros [= <- <-]. destruct (IH _ _ Hrec) as [-> Hm].
    split; [done|by constructor].
Qed.

Lemma match_json_here_spec (s m : str) :
  match_json_here s = Some m → json_pattern m ∧ ∃ post, s = m ++ post.
Proof.
  unfold match_json_here.
  destruct (strip_prefix_nocase (lit "dr/img") s) as [[head after]|] eqn:Hhead;
    [|done].
  destruct (strip_prefix_nocase (lit ".json") (drop_while isword after))
    as [[ext post]|] eqn:Hext; [|done].
  intros [= <-].
  apply strip_prefix_nocase_spec in Hhead as [-> Hhead].
  apply strip_prefix_nocase_spec in Hext as [Hafter Hext].
  split.
  - exists head, (take_while isword after), ext.
    split_and!; [done|done|apply take_while_Forall|done].
  - exists post. rewrite <- !app_assoc. do 2 f_equal.
    by rewrite <- Hafter, take_drop_while.
Qed.

Lemma findall_from_spec (skip : nat) (s m : str) :
  m ∈ findall_from skip s →
  json_pattern m ∧ ∃ pre post, s = pre ++ m ++ post.
Proof.
  revert skip. induction s as [|c s IH]; intros skip; simpl.
  - by intros ?%elem_of_nil.
  - assert (Hlater : ∀ k, m ∈ findall_from k s →
              json_pattern m ∧ ∃ pre post, c :: s = pre ++ m ++ post).
    { intros k Hm. destruct (IH k Hm) as (Hpat & pre & post & ->).
      split; [done|]. by exists (c :: pre), post. }
    destruct skip as [|skip]; [|apply Hlater].
    destruct (match_json_here (c :: s)) as [m'|] eqn:Hhere; [|apply Hlater].
    intros [->|Hm]%elem_of_cons; [|by apply (Hlater _ Hm)].
    destruct (match_json_here_spec _ _ Hhere) as (Hpat & post & Heq).
    split; [done|]. exists [], post. by rewrite Heq.
Qed.

Lemma eqb_nocase_slash (c : ascii) :
  eqb_nocase "/" c = true → c = "/"%char.
Proof.
  destruct c as [[] [] [] [] [] [] [] []]; vm_compute; congruence.
Qed.

(** A character that matches a letter or the dot of the pattern is no
    path separator. *)
Lemma eqb_nocase_plain (p c : ascii) :
  p ≠ "/"%char → p ≠ "\"%char → eqb_nocase p c = true →
  c ≠ "/"%char ∧ c ≠ "\"%char.
Proof.
  intros Hp1 Hp2 Hpc. split; intros ->.
  - destruct Hp1. revert Hpc.
    destruct p as [[] [] [] [] [] [] [] []]; vm_compute; congruence.
  - destruct Hp2. revert Hpc.
    destruct p as [[] [] [] [] [] [] [] []]; vm_compute; congruence.
Qed.

Lemma same_nocase_plain (p text : str) :
  plain p → same_nocase p text → plain text.
Proof.
  intros [Hp1 Hp2] Hsame.
  induction Hsame as [|a c p text Hac _ IH]; [done|].
  apply not_elem_of_cons in Hp1 as [Ha1 Hp1].
  apply not_elem_of_cons in Hp2 as [Ha2 Hp2].
  destruct (IH Hp1 Hp2) as [IH1 IH2].
  destruct (eqb_nocase_plain a c) as [Hc1 Hc2]; [done..|].
  split; intros [?|?]%elem_of_cons; done.
Qed.

Lemma json_pattern_ref (m : str) : json_pattern m → json_ref m.
Proof.
  intros (head & word & ext & -> & Hhead & Hword & Hext).
  unfold same_nocase, lit in Hhead. simpl in Hhead.
  apply Forall2_cons_inv_l in Hhead as (h0 & t0 & H0 & Hhead & ->).
  apply Forall2_cons_inv_l in Hhead as (h1 & t1 & H1 & Hhead & ->).
  apply Forall2_cons_inv_l in Hhead as (h2 & t2 & H2 & Hhead & ->).
  apply eqb_nocase_slash in H2 as ->.
  exists [h0; h1], (t2 ++ word ++ ext). split_and!; [done|done| |].
  - apply (same_nocase_plain (lit "dr")); [by apply plain_lit_check|].
    by repeat constructor.
  - apply plain_app; [|apply plain_app].
    + by apply (same_nocase_plain (lit "img"));
        [apply plain_lit_check|].
    + by apply (Forall_plain (λ c, isword c = true));
        [apply isword_plain|].
    + by apply (same_nocase_plain (lit ".json"));
        [apply plain_lit_check|].
Qed.

(** The order on strings is total and transitive. *)
#[local] Instance str_le_total : Total str_le.
Proof.
  intros a. unfold str_le.
  induction a as [|x a IH]; intros [|y b]; simpl; auto.
  destruct (Nat.ltb_spec (nat_of_ascii x) (nat_of_ascii y)) as [Hxy|Hxy];
    [by left|].
  destruct (Nat.ltb_spec (nat_of_ascii y) (nat_of_ascii x)) as [Hyx|Hyx];
    [by right|].
  apply IH.
Qed.

#[local] Instance str_le_trans : Transitive str_le.
Proof.
  unfold str_le. intros a.
  induction a as [|x a IH]; intros [|y b] [|z c]; simpl; try done.
  destruct (Nat.ltb_spec (nat_of_ascii x) (nat_of_ascii y)) as [Hxy|Hxy];
    destruct (Nat.ltb_spec (nat_of_ascii y) (nat_of_ascii z)) as [Hyz|Hyz];
    destruct (Nat.ltb_spec (nat_of_ascii x) (nat_of_ascii z)) as [Hxz|Hxz];
    try done; try lia.
  - destruct (Nat.ltb_spec (nat_of_ascii z) (nat_of_ascii y)); [done|lia].
  - destruct (Nat.ltb_spec (nat_of_ascii y) (nat_of_ascii x)); [done|lia].
  - destruct (Nat.ltb_spec (nat_of_ascii y) (nat_of_ascii x)); [done|].
    destruct (Nat.ltb_spec (nat_of_ascii z) (nat_of_ascii y)); [done|].
    destruct (Nat.ltb_spec (nat_of_ascii z) (nat_of_ascii x)); [lia|].
    apply IH.
Qed.

Lemma find_json_files_elem (xml_content : scrape_result) (m : str) :
  m ∈ find_json_files_from_manifest xml_content ↔
  m ∈ findall_json (manifest_text xml_content).
Proof.
  unfold find_json_files_from_manifest, py_sorted.
  rewrite merge_sort_Permutation, elem_of_elements, elem_of_list_to_set.
  done.
Qed.

Lemma find_json_files_NoDup (xml_content : scrape_result) :
  NoDup (find_json_files_from_manifest xml_content).
Proof.
  unfold find_json_files_from_manifest, py_sorted.
  rewrite merge_sort_Permutation. apply NoDup_elements.
Qed.

Lemma find_json_files_shape (xml_content : scrape_result) (m : str) :
  m ∈ find_json_files_from_manifest xml_content →
  json_pattern m ∧ ∃ pre post, manifest_text xml_content = pre ++ m ++ post.
Proof.
  intros Hm. apply find_json_files_elem in Hm.
  by apply findall_from_spec in Hm.
Qed.

(** X14. [find_json_files_from_manifest] returns the matches of the
    pattern in the markdown and HTML text, each once, in ascending order.
    Every name it returns occurs in that text and has the shape
    [dr/img], word characters, [.json], up to case. *)
Theorem find_json_files_sorted_matches (xml_content : scrape_result) :
  let json_files := find_json_files_from_manifest xml_content in
  StronglySorted str_le json_files
  ∧ NoDup json_files
  ∧ (∀ m, m ∈ json_files ↔ m ∈ findall_json (manifest_text xml_content))
  ∧ (∀ m, m ∈ json_files →
       json_pattern m ∧
       ∃ pre post, manifest_text xml_content = pre ++ m ++ post).
Proof.
  intros json_files. split_and!.
  - apply (StronglySorted_merge_sort str_le).
  - apply find_json_files_NoDup.
  - apply find_json_files_elem.
  - apply find_json_files_shape.
Qed.

(** X15. The JSON files [process_course_url] fetches, the manifest's or
    else the 52 fallback names, are never none; they are pairwise
    different, and so are the safe file names made from them, which hold
    no path separator. *)
Theorem json_files_to_fetch_distinct (xml_content : scrape_result) :
  let json_files := json_files_to_fetch xml_content in
  json_files ≠ []
  ∧ (find_json_files_from_manifest xml_content = [] →
       json_files = get_fallback_json_files 50 ∧ length json_files = 52)
  ∧ (find_json_files_from_manifest xml_content ≠ [] →
       json_files = find_json_files_from_manifest xml_content)
  ∧ NoDup json_files
  ∧ NoDup (safe_filename <$> json_files)
  ∧ Forall plain (safe_filename <$> json_files).
Proof.
  intros json_files.
  assert (Hcases :
    (find_json_files_from_manifest xml_content = [] ∧
     json_files = get_fallback_json_files 50)
    ∨ (find_json_files_from_manifest xml_content ≠ [] ∧
       json_files = find_json_files_from_manifest xml_content)).
  { unfold json_files, json_files_to_fetch.
    destruct (find_json_files_from_manifest xml_content); [by left|by right]. }
  assert (Hfacts : json_files ≠ [] ∧ NoDup json_files ∧
                   Forall json_ref json_files).
  { destruct Hcases as [[_ ->]|[Hne ->]].
    - split_and!; [|apply fallback_NoDup|apply fallback_refs].
      intros Hnil. pose proof (fallback_length 50) as Hlen.
      by rewrite Hnil in Hlen.
    - split_and!; [done|apply find_json_files_NoDup|].
      apply Forall_forall. intros m Hm.
      by apply json_pattern_ref, (find_json_files_shape xml_content). }
  destruct Hfacts as (Hne & Hnodup & Hrefs).
  split_and!; [done| | |done| |].
  - intros Hnone. destruct Hcases as [[_ ->]|[? _]]; [|done].
    split; [done|apply fallback_length].
  - intros Hsome. by destruct Hcases as [[? _]|[_ ->]].
  - by apply safe_names_NoDup.
  - by apply safe_names_plain.
Qed.

End JsonFileFacts.

(** ** What the extractor leaves alone *)

Section ExtractorFacts.

Import Images Claims.

Context (json_loads : str → loaded).
Context (b64decode : str → option (list byte)).
Context (open_wb : str → exc unit).





End ExtractorFacts.

(** ** The summary of the CSV filter *)

Section SummaryFacts.

Import BadModules Claims Summary.

(** X17. The loop over the CSV ends exactly when every row reaches the
    [lessonID] column.  Then [total_rows] is the number of rows read, the
    matching rows are kept in order, [found_lesson_ids] holds their
    stripped [lessonID]s and only bad modules, and the missing ids are the
    bad modules that no row carries; found and missing ids together count
    the bad modules.  Otherwise the loop raises the [AttributeError] of
    [None.strip()]. *)
Theorem filter_summary_counts (bad_modules : gset str)
    (rows : list reader_row) :
  match filter_rows bad_modules rows with
  | Ret st =>
      Forall has_lesson_id rows
      ∧ total_rows st = length rows
      ∧ length (matching_rows st) ≤ total_rows st
      ∧ matching_rows st = filter (row_matches bad_modules) rows
      ∧ found_lesson_ids st = list_to_set (stripped_id <$> matching_rows st)
      ∧ found_lesson_ids st ⊆ bad_modules
      ∧ (∀ lesson_id,
           lesson_id ∈ missing_lesson_ids bad_modules st ↔
           lesson_id ∈ bad_modules ∧
           ∀ r, r ∈ rows → stripped_id r ≠ lesson_id)
      ∧ size (found_lesson_ids st)
        + size (missing_lesson_ids bad_modules st)
        = size bad_modules
  | Raise e =>
      e = Exception (lit "'NoneType' object has no attribute 'strip'")
      ∧ Exists (λ r, ¬ has_lesson_id r) rows
  end.
Proof.
  unfold filter_rows.
  destruct (decide (Forall has_lesson_id rows)) as [Hids|Hnot].
  2:{ apply not_Forall_Exists in Hnot; [|apply _].
      by rewrite (filter_rows_from_raises bad_modules rows _ Hnot). }
  destruct (filter_rows_from_spec bad_modules rows (FilterState [] ∅ 0) Hids)
    as (st & -> & Hrows & Htotal & Hfound).
  cbn [matching_rows total_rows found_lesson_ids app] in Hrows, Htotal, Hfound.
  rewrite (left_id_L ∅ (∪)) in Hfound. rewrite <- Hrows in Hfound.
  assert (Helem : ∀ lesson_id,
            lesson_id ∈ found_lesson_ids st ↔
            lesson_id ∈ bad_modules ∧ ∃ r, r ∈ rows ∧ stripped_id r = lesson_id).
  { intros lesson_id.
    rewrite Hfound, Hrows, elem_of_list_to_set, list_elem_of_fmap. split.
    - intros (r & -> & [Hm Hr]%list_elem_of_filter). split; [|eauto].
      eapply Forall_forall in Hids; [|exact Hr].
      by apply row_matches_stripped.
    - intros (Hbad & r & Hr & <-). exists r. split; [done|].
      apply list_elem_of_filter. split; [|done].
      eapply Forall_forall in Hids; [|exact Hr].
      by apply row_matches_stripped. }
  assert (Hsub : found_lesson_ids st ⊆ bad_modules).
  { intros lesson_id Hin. by apply Helem in Hin as [? _]. }
  split_and!; [done|done| |done|done|done| |].
  - rewrite Htotal, Hrows. apply length_filter.
  - intros lesson_id. unfold missing_lesson_ids.
    rewrite elem_of_difference, Helem. split.
    + intros [Hbad Hnone]. split; [done|]. intros r Hr Hid.
      apply Hnone. eauto.
    + intros [Hbad Hnone]. split; [done|].
      intros (_ & r & Hr & Hid). by apply (Hnone r).
  - unfold missing_lesson_ids.
    rewrite <- size_union.
    + by rewrite <- (union_difference_L _ _ Hsub).
    + intros lesson_id Hin [_ Hout]%elem_of_difference. done.
Qed.

End SummaryFacts.

(** ** The files the JSON content is written to *)

Section SavedFileFacts.

Import Urls Claims Properties.

Lemma with_suffix_ext (stem rest new_suffix : str) :
  stem ≠ [] → rest ≠ [] → ("."%char ∉ rest) →
  with_suffix (stem ++ "."%char :: rest) new_suffix = stem ++ new_suffix.
Proof.
  intros Hstem Hrest Hdot. unfold with_suffix, suffix.
  rewrite rsplit_last_app by done.
  apply truthy_true in Hstem as ->. apply truthy_true in Hrest as ->.
  cbn [andb truthy negb]. f_equal.
  rewrite length_app. rewrite Nat.add_sub. by rewrite take_app_length.
Qed.

(** What matches [\.json] without regard to case: a dot and four
    characters that are neither dots nor separators. *)
Lemma same_nocase_json (ext : str) :
  same_nocase (lit ".json") ext →
  ∃ rest, ext = "."%char :: rest ∧ rest ≠ [] ∧ ("."%char ∉ rest) ∧
          plain ext.
Proof.
  intros Hext.
  assert (Hplain : plain ext).
  { by apply (same_nocase_plain (lit ".json")); [apply plain_lit_check|]. }
  unfold same_nocase, lit in Hext. simpl in Hext.
  apply Forall2_cons_inv_l in Hext as (c0 & t0 & H0 & Hext & ->).
  apply Forall2_cons_inv_l in Hext as (c1 & t1 & H1 & Hext & ->).
  apply Forall2_cons_inv_l in Hext as (c2 & t2 & H2 & Hext & ->).
  apply Forall2_cons_inv_l in Hext as (c3 & t3 & H3 & Hext & ->).
  apply Forall2_cons_inv_l in Hext as (c4 & t4 & H4 & Hext & ->).
  apply Forall2_nil_inv_l in Hext as ->.
  assert (c0 = "."%char) as ->.
  { revert H0. destruct c0 as [[] [] [] [] [] [] [] []]; vm_compute;
      congruence. }
  exists [c1; c2; c3; c4]. split_and!; [done|done| |done].
  intros Hin. repeat (apply elem_of_cons in Hin as [<-|Hin]; [done|]).
  by apply elem_of_nil in Hin.
Qed.

(** The file name of a JSON file [a/b.json]: [a_b.json], whatever the
    case of the extension. *)
Lemma json_file_name_stem (a b ext : str) :
  plain a → plain b → same_nocase (lit ".json") ext →
  json_file_name (a ++ "/"%char :: b ++ ext) = a ++ "_"%char :: b ++ lit ".json".
Proof.
  intros Ha Hb Hext.
  destruct (same_nocase_json ext Hext) as (rest & -> & Hrest & Hdot & Hplain).
  unfold json_file_name.
  rewrite safe_filename_json_ref by (done || by apply plain_app).
  change (a ++ "_"%char :: b ++ "."%char :: rest)
    with (a ++ ("_"%char :: b) ++ "."%char :: rest).
  rewrite (assoc_L (++)), with_suffix_ext; [|by destruct a|done|done].
  by rewrite <- (assoc_L (++)).
Qed.

(** A match of the pattern: a two-character directory, a '/', a rest
    without separator, and the extension. *)
Lemma json_pattern_stem (m : str) :
  json_pattern m →
  ∃ a b ext, m = a ++ "/"%char :: b ++ ext ∧ length a = 2 ∧
             plain a ∧ plain b ∧ same_nocase (lit ".json") ext.
Proof.
  intros (head & word & ext & -> & Hhead & Hword & Hext).
  unfold same_nocase, lit in Hhead. simpl in Hhead.
  apply Forall2_cons_inv_l in Hhead as (h0 & t0 & H0 & Hhead & ->).
  apply Forall2_cons_inv_l in Hhead as (h1 & t1 & H1 & Hhead & ->).
  apply Forall2_cons_inv_l in Hhead as (h2 & t2 & H2 & Hhead & ->).
  apply eqb_nocase_slash in H2 as ->.
  exists [h0; h1], (t2 ++ word), ext.
  split_and!; [by rewrite <- (assoc_L (++))|done| | |done].
  - apply (same_nocase_plain (lit "dr")); [by apply plain_lit_check|].
    by repeat constructor.
  - apply plain_app.
    + by apply (same_nocase_plain (lit "img"));
        [apply plain_lit_check|].
    + by apply (Forall_plain (λ c, isword c = true));
        [apply isword_plain|].
Qed.

(** X18. The content of a JSON file whose name matches the pattern is
    written to the safe name with the extension in lower case:
    [stem.json] for the name [stem] followed by the extension.  Two such
    names are written to the same file exactly when they differ at most
    in the case of the extension. *)
Theorem json_file_names_meet_on_extension (m m' : str) :
  json_pattern m → json_pattern m' →
  (∃ stem ext,
     m = stem ++ ext ∧ same_nocase (lit ".json") ext ∧
     json_file_name m = safe_filename stem ++ lit ".json")
  ∧ (json_file_name m = json_file_name m' ↔
     ∃ stem ext ext',
       m = stem ++ ext ∧ m' = stem ++ ext' ∧
       same_nocase (lit ".json") ext ∧ same_nocase (lit ".json") ext').
Proof.
  intros (a & b & ext & -> & Hlen & Ha & Hb & Hext)%json_pattern_stem
         (a' & b' & ext' & -> & Hlen' & Ha' & Hb' & Hext')%json_pattern_stem.
  rewrite !json_file_name_stem by done. split.
  - exists (a ++ "/"%char :: b), ext. split_and!; [|done|].
    + by rewrite <- (assoc_L (++)).
    + rewrite safe_filename_json_ref by done. by rewrite <- (assoc_L (++)).
  - split.
    + intros Heq.
      apply app_inj_1 in Heq as [-> Heq]; [|congruence].
      injection Heq as Heq. apply app_inv_tail in Heq as ->.
      exists (a' ++ "/"%char :: b'), ext, ext'.
      split_and!; [|  |done|done]; by rewrite <- (assoc_L (++)).
    + intros (stem & e & e' & Hm & Hm' & He & He').
      pose proof (Forall2_length _ _ _ Hext) as Hl1.
      pose proof (Forall2_length _ _ _ Hext') as Hl2.
      pose proof (Forall2_length _ _ _ He) as Hl3.
      pose proof (Forall2_length _ _ _ He') as Hl4.
      assert (Hstem : a ++ "/"%char :: b = stem ∧ ext = e).
      { apply app_inj_2; [congruence|].
        by rewrite <- (assoc_L (++)). }
      assert (Hstem' : a' ++ "/"%char :: b' = stem ∧ ext' = e').
      { apply app_inj_2; [congruence|].
        by rewrite <- (assoc_L (++)). }
      destruct Hstem as [Hstem _]. destruct Hstem' as [Hstem' _].
      rewrite <- Hstem' in Hstem.
      apply app_inj_1 in Hstem as [-> [= ->]]; [done|congruence].
Qed.

(** X19. The fallback names are written under their safe names as they
    are, so that no two of them are written to the same file. *)
Theorem fallback_file_names_distinct (max_files : nat) :
  let json_files := get_fallback_json_files max_files in
  json_file_name <$> json_files = safe_filename <$> json_files
  ∧ NoDup (json_file_name <$> json_files).
Proof.
  intros json_files.
  assert (Hnames : json_file_name <$> json_files
                   = safe_filename <$> json_files).
  { apply list_eq_Forall2, Forall2_fmap, Forall_Forall2_diag.
    unfold json_files. rewrite fallback_list.
    assert (Hjson : same_nocase (lit ".json") (lit ".json"))
      by by repeat constructor.
    assert (Hdr : plain (lit "dr")) by by apply plain_lit_check.
    apply Forall_app. split.
    - apply Forall_fmap, Forall_forall. intros i _. cbv beta.
      assert (Hb : plain (lit "img" ++ str_of_int i)).
      { apply plain_app; [by apply plain_lit_check|].
        apply (Forall_plain (λ c, isdigit c = true));
          [|apply str_of_int_digits].
        intros c Hc. by destruct (digit_plain c Hc) as (? & ? & _). }
      assert (Hname : lit "dr/img" ++ str_of_int i ++ lit ".json"
                      = lit "dr" ++ "/"%char
                        :: (lit "img" ++ str_of_int i) ++ lit ".json")
        by by rewrite <- (assoc_L (++)).
      unfold compose. rewrite Hname, json_file_name_stem by done.
      rewrite safe_filename_json_ref;
        [done|done|by apply plain_app; [|apply plain_lit_check]].
    - repeat constructor. }
  split; [done|]. rewrite Hnames.
  apply safe_names_NoDup; [apply fallback_refs|apply fallback_NoDup].
Qed.

End SavedFileFacts.

(** ** The theorems at work on the catalogue and the sample run *)

Section MoreWitnesses.

Import BadModules Parallel Scraper Urls Loaders Properties Claims.

#[local] Ltac by_computation :=
  match goal with
  | |- ?P => apply (@bool_decide_unpack P ltac:(apply _)); vm_compute; exact I
  end.

#[local] Ltac rows_have_columns :=
  unfold has_course_columns, has_url_columns; by_computation.

(** The folder and the base URL of a course manifest. *)
Lemma folder_and_base_of_manifest_url_witness :
  ("/"%char ∉ lit "c100")
  ∧ lit "c100" ≠ manifest
  ∧ (manifest ∉ split "/" (lit "https://host/courses"))
  ∧ extract_folder_name (lit "https://host/courses/c100/imsmanifest.xml")
    = Some (lit "c100")
  ∧ get_base_url (lit "https://host/courses/c100/imsmanifest.xml")
    = Ret (lit "https://host/courses/c100/").
Proof.
  assert (H1 : "/"%char ∉ lit "c100") by by_computation.
  assert (H2 : lit "c100" ≠ manifest) by by_computation.
  assert (H3 : manifest ∉ split "/" (lit "https://host/courses"))
    by by_computation.
  split_and!; [exact H1|exact H2|exact H3|..];
    apply (folder_and_base_of_manifest_url
             (lit "https://host/courses") (lit "c100") H1 H2 H3).
Defined.

(** The first two of the three courses. *)
Lemma load_all_urls_limited_witness :
  Forall has_url_columns Catalogue.rows
  ∧ load_all_urls (Some 2%Z) (Some (Catalogue.fieldnames, Catalogue.rows))
    = Ret (url_of_row <$> take 2 Catalogue.rows).
Proof.
  assert (H : Forall has_url_columns Catalogue.rows) by rows_have_columns.
  split; [exact H|].
  apply (load_all_urls_limited (Some 2%Z) Catalogue.fieldnames
           Catalogue.rows H).
Defined.

(** Two of the three courses are on the list; the limit keeps the first. *)
Lemma load_matching_urls_limited_witness :
  Forall has_course_columns Catalogue.rows
  ∧ load_matching_urls_from_csv [lit "L-300"; lit "L-100"] (Some 1%Z)
      (Some (Catalogue.fieldnames, Catalogue.rows))
    = Ret (limited (Some 1%Z)
             (course_of_row
              <$> filter (row_selected
                            (list_to_set [lit "L-300"; lit "L-100"]))
                         Catalogue.rows)).
Proof.
  assert (H : Forall has_course_columns Catalogue.rows)
    by rows_have_columns.
  split; [exact H|].
  apply (load_matching_urls_limited [lit "L-300"; lit "L-100"] (Some 1%Z)
           Catalogue.fieldnames Catalogue.rows H).
Defined.


(** Three URLs over two keys: three records, the second a failure. *)
Lemma all_results_one_per_url_witness :
  0 < length Samples.api_keys
  ∧ ∃ runs,
      main_batches nat
        (scrape_single_course nat Samples.process_course_url
           Samples.time_spent)
        Samples.urls Samples.api_keys = Ret runs ∧
      length (all_results nat runs) = 3.
Proof.
  split; [exact (Nat.lt_0_succ 1)|].
  destruct (all_results_one_per_url Samples.process_course_url
              Samples.time_spent Samples.urls Samples.api_keys
              (Nat.lt_0_succ 1)) as (runs & Hmain & Hlen & _).
  exists runs. split; [exact Hmain|exact Hlen].
Defined.

(** Three URLs over two keys: no batch gives a key to two tasks. *)
Lemma batch_keys_not_shared_witness :
  0 < length Samples.api_keys
  ∧ NoDup Samples.api_keys
  ∧ ∃ runs,
      main_batches nat
        (scrape_single_course nat Samples.process_course_url
           Samples.time_spent)
        Samples.urls Samples.api_keys = Ret runs ∧
      ∀ run, run ∈ runs → NoDup (task_key <$> run_tasks nat run).
Proof.
  assert (Hkeys : NoDup Samples.api_keys) by by_computation.
  split; [exact (Nat.lt_0_succ 1)|]. split; [exact Hkeys|].
  destruct (batch_keys_not_shared Samples.process_course_url
              Samples.time_spent Samples.urls Samples.api_keys
              (Nat.lt_0_succ 1)) as (runs & Hmain & Hruns).
  exists runs. split; [exact Hmain|].
  intros run Hrun. destruct (Hruns run Hrun) as [_ Hnodup].
  exact (Hnodup Hkeys).
Defined.

(** The demo on three URLs and two keys: three tasks. *)
Lemma demo_tasks_round_robin_witness :
  0 < length Samples.api_keys
  ∧ ∃ tasks,
      demo_tasks_from 0 Samples.urls Samples.api_keys = Ret tasks ∧
      length tasks = 3.
Proof.
  split; [exact (Nat.lt_0_succ 1)|].
  destruct (demo_tasks_round_robin Samples.urls Samples.api_keys
              (Nat.lt_0_succ 1)) as (tasks & Hdemo & Hlen & _).
  exists tasks. split; [exact Hdemo|exact Hlen].
Defined.

(** Two names of the manifest that differ in the case of the extension. *)
Lemma json_file_names_meet_on_extension_witness :
  json_pattern (lit "dr/img1.json")
  ∧ json_pattern (lit "dr/img1.JSON")
  ∧ (json_file_name (lit "dr/img1.json") = json_file_name (lit "dr/img1.JSON")
     ↔ ∃ stem ext ext',
         lit "dr/img1.json" = stem ++ ext ∧
         lit "dr/img1.JSON" = stem ++ ext' ∧
         same_nocase (lit ".json") ext ∧ same_nocase (lit ".json") ext').
Proof.
  assert (H1 : json_pattern (lit "dr/img1.json")).
  { exists (lit "dr/img"), (lit "1"), (lit ".json").
    split_and!; [reflexivity|..]; by repeat constructor. }
  assert (H2 : json_pattern (lit "dr/img1.JSON")).
  { exists (lit "dr/img"), (lit "1"), (lit ".JSON").
    split_and!; [reflexivity|..]; by repeat constructor. }
  split_and!; [exact H1|exact H2|].
  exact (proj2 (json_file_names_meet_on_extension
                  (lit "dr/img1.json") (lit "dr/img1.JSON") H1 H2)).
Defined.

(** [with_suffix] on names with and without a suffix. *)
Example with_suffix_sample :
  with_suffix (lit "dr_img1.JSON") (lit ".json") = lit "dr_img1.json"
  ∧ with_suffix (lit "dr_img.x.json") (lit ".md") = lit "dr_img.x.md"
  ∧ with_suffix (lit "dr_img1.json") (lit ".metadata.json")
    = lit "dr_img1.metadata.json"
  ∧ with_suffix (lit ".json") (lit ".json") = lit ".json.json"
  ∧ with_suffix (lit "a.") (lit ".json") = lit "a..json"
  ∧ with_suffix (lit "..json") (lit ".json") = lit "..json"
  ∧ with_suffix (lit "abc") (lit ".json") = lit "abc.json"
  ∧ json_file_name (lit "DR/IMG10.JSON") = lit "DR_IMG10.json".
Proof. vm_compute. done. Qed.

(** The loaders, the JSON file names and the summary on concrete input. *)
Example loaders_sample :
  get_base_url (lit "https://host/c100/imsmanifest.xml")
  = Ret (lit "https://host/c100/")
  ∧ get_base_url (lit "imsmanifest.xml") = Ret (lit "imsmanifest.xml/")
  ∧ load_api_keys (Some [lit "fc-key-0 "; lit ""; lit "  fc-key-1"])
    = Ret [lit "fc-key-0"; lit "fc-key-1"]
  ∧ lesson_id
    <$> default []
          (match load_all_urls (Some 2%Z)
                   (Some (Catalogue.fieldnames, Catalogue.rows)) with
           | Ret l => Some l
           | Raise _ => None
           end)
    = [lit "L-100"; lit "L-200"]
  ∧ find_json_files_from_manifest
      (ScrapeResult
         (Some (lit "see dr/img2.json, DR/IMG10.JSON and dr/img2.json"))
         (Some (lit "<a href=dr/imgmd.json>")))
    = [lit "DR/IMG10.JSON"; lit "dr/img2.json"; lit "dr/imgmd.json"]
  ∧ length (json_files_to_fetch (ScrapeResult None (Some (lit "<html/>"))))
    = 52
  ∧ safe_filename (lit "dr/img2.json") = lit "dr_img2.json".
Proof. vm_compute. done. Qed.

End MoreWitnesses.
